(** * The upload / analysis / export workflow of [src/pages/Index.tsx]

    A shallow embedding of the [Index] component's state and of its event
    handlers ([onDrop], [handleFileInput], [removeImage], [clearImages],
    [analyzeImages], [exportToCSV], [saveToGoogleSheets]), followed by the
    properties of the workflow proved on that embedding. *)

From Stdlib Require Import String Ascii Bool NArith ZArith QArith Qround Lia List.
From Stdlib Require Import Floats.
Import ListNotations.

Local Open Scope list_scope.

(** ** JavaScript strings and the library functions the component calls *)

Module JS.

(** A JavaScript string is a sequence of UTF-16 code units. *)
Definition code_unit := N.
Definition jsstring := list code_unit.

(** Literals are written as in the source file (UTF-8) and decoded to code
    units.  The literals of the component are ASCII and Cyrillic, that is
    one- and two-byte sequences. *)
Fixpoint utf16 (s : string) : jsstring :=
  match s with
  | EmptyString => []
  | String a tl =>
      let x := N_of_ascii a in
      if (x <? 128)%N then x :: utf16 tl
      else match tl with
           | EmptyString => [x]
           | String b rest =>
               ((x - 192) * 64 + (N_of_ascii b - 128))%N :: utf16 rest
           end
  end.

(** ECMAScript WhiteSpace and LineTerminator code points, the characters
    [String.prototype.trim] strips. *)
Definition is_whitespace (c : code_unit) : bool :=
  ((c =? 9) || (c =? 10) || (c =? 11) || (c =? 12) || (c =? 13) || (c =? 32)
   || (c =? 160) || (c =? 5760) || ((8192 <=? c) && (c <=? 8202))
   || (c =? 8232) || (c =? 8233) || (c =? 8239) || (c =? 8287)
   || (c =? 12288) || (c =? 65279))%N.

Fixpoint trimStart (s : jsstring) : jsstring :=
  match s with
  | c :: rest => if is_whitespace c then trimStart rest else s
  | [] => []
  end.

Definition trimEnd (s : jsstring) : jsstring := rev (trimStart (rev s)).

Definition trim (s : jsstring) : jsstring := trimEnd (trimStart s).

(** Truthiness of a string: only the empty string is falsy. *)
Definition truthy (s : jsstring) : bool :=
  match s with [] => false | _ :: _ => true end.

(** [s.startsWith(p)] *)
Fixpoint startsWith (s p : jsstring) : bool :=
  match p, s with
  | [], _ => true
  | _ :: _, [] => false
  | a :: p', b :: s' => (a =? b)%N && startsWith s' p'
  end.

(** [xs.join(sep)] on an array of strings. *)
Fixpoint join (sep : jsstring) (xs : list jsstring) : jsstring :=
  match xs with
  | [] => []
  | [x] => x
  | x :: rest => x ++ sep ++ join sep rest
  end.

(** Decimal digits of a non-negative integer, most significant first. *)
Fixpoint digits_fuel (fuel : nat) (n : N) : jsstring :=
  match fuel with
  | O => []
  | S k =>
      (if (n <? 10)%N then [] else digits_fuel k (n / 10)%N)
        ++ [(48 + n mod 10)%N]
  end.

Definition decimal (n : N) : jsstring :=
  digits_fuel (S (N.to_nat (N.log2 n))) n.

(** [x.toFixed(f)] for a finite [0 <= x < 10^21] (ECMAScript
    Number.prototype.toFixed, steps 8 to 10): [n] is the integer for which
    [n / 10^f - x] is as close to zero as possible, the larger one on a tie;
    its digits are padded with zeros to [f + 1] characters and the point is
    put before the last [f]. *)
Definition toFixed (x : Q) (f : nat) : jsstring :=
  let n := Z.to_N (Qfloor (x * inject_Z (10 ^ Z.of_nat f) + (1 # 2))) in
  let m := decimal n in
  match f with
  | O => m
  | _ =>
      let k := length m in
      let m := if (k <=? f)%nat then repeat 48%N (f + 1 - k) ++ m else m in
      let k := length m in
      firstn (k - f) m ++ [46%N] ++ skipn (k - f) m
  end.

End JS.

Import JS.

(** ** Data model of the component *)

(** The part of a DOM [File] the component reads.  [file_size] is the value
    of [file.size], a non-negative integer; dividing it by 1024 only changes
    the exponent of the double, so the quotients are exact and are kept as
    rationals. *)
Record File := {
  file_name : jsstring;
  file_size : N;
  file_type : jsstring
}.

Record ImageFile := {
  id : jsstring;
  file : File;
  name : jsstring;
  size : jsstring;
  preview : option jsstring
}.

Inductive Status := pending | processing | completed | error.

(** An optional field holding [undefined] is [None]. *)
Record AnalysisResult := {
  filename : jsstring;
  title : jsstring;
  description : option jsstring;
  keywords : jsstring;
  status : Status
}.

(** The [useState] cells of [Index]. *)
Record State := {
  apiKey : jsstring;
  model : jsstring;
  images : list ImageFile;
  useFilename : bool;
  includeDescription : bool;
  results : list AnalysisResult;
  isProcessing : bool;
  progress : float;
  googleSheetsUrl : jsstring
}.

Definition initial : State := {|
  apiKey := utf16 "";
  model := utf16 "gpt-4o-mini";
  images := [];
  useFilename := false;
  includeDescription := false;
  results := [];
  isProcessing := false;
  progress := 0%float;
  googleSheetsUrl := utf16 ""
|}.

(** What a handler does besides computing: the state setters it calls and
    the browser effects it triggers, in call order.  [setImages] carries the
    updater function ([setImages([])] is the constant updater); [download]
    is the click on a link to a [Blob] of the given MIME type and text;
    [setTimeout] is a suspension of the handler for that many
    milliseconds. *)
Inductive Call :=
| setApiKey (v : jsstring)
| setModel (v : jsstring)
| setImages (f : list ImageFile -> list ImageFile)
| setUseFilename (v : bool)
| setIncludeDescription (v : bool)
| setResults (v : list AnalysisResult)
| setIsProcessing (v : bool)
| setProgress (v : float)
| setGoogleSheetsUrl (v : jsstring)
| alert (message : jsstring)
| download (filename' : jsstring) (type : jsstring) (text : jsstring)
| setTimeout (ms : N).

Definition apply_call (c : Call) (st : State) : State :=
  match c with
  | setApiKey v =>
      {| apiKey := v; model := model st; images := images st;
         useFilename := useFilename st;
         includeDescription := includeDescription st; results := results st;
         isProcessing := isProcessing st; progress := progress st;
         googleSheetsUrl := googleSheetsUrl st |}
  | setModel v =>
      {| apiKey := apiKey st; model := v; images := images st;
         useFilename := useFilename st;
         includeDescription := includeDescription st; results := results st;
         isProcessing := isProcessing st; progress := progress st;
         googleSheetsUrl := googleSheetsUrl st |}
  | setImages f =>
      {| apiKey := apiKey st; model := model st; images := f (images st);
         useFilename := useFilename st;
         includeDescription := includeDescription st; results := results st;
         isProcessing := isProcessing st; progress := progress st;
         googleSheetsUrl := googleSheetsUrl st |}
  | setUseFilename v =>
      {| apiKey := apiKey st; model := model st; images := images st;
         useFilename := v;
         includeDescription := includeDescription st; results := results st;
         isProcessing := isProcessing st; progress := progress st;
         googleSheetsUrl := googleSheetsUrl st |}
  | setIncludeDescription v =>
      {| apiKey := apiKey st; model := model st; images := images st;
         useFilename := useFilename st;
         includeDescription := v; results := results st;
         isProcessing := isProcessing st; progress := progress st;
         googleSheetsUrl := googleSheetsUrl st |}
  | setResults v =>
      {| apiKey := apiKey st; model := model st; images := images st;
         useFilename := useFilename st;
         includeDescription := includeDescription st; results := v;
         isProcessing := isProcessing st; progress := progress st;
         googleSheetsUrl := googleSheetsUrl st |}
  | setIsProcessing v =>
      {| apiKey := apiKey st; model := model st; images := images st;
         useFilename := useFilename st;
         includeDescription := includeDescription st; results := results st;
         isProcessing := v; progress := progress st;
         googleSheetsUrl := googleSheetsUrl st |}
  | setProgress v =>
      {| apiKey := apiKey st; model := model st; images := images st;
         useFilename := useFilename st;
         includeDescription := includeDescription st; results := results st;
         isProcessing := isProcessing st; progress := v;
         googleSheetsUrl := googleSheetsUrl st |}
  | setGoogleSheetsUrl v =>
      {| apiKey := apiKey st; model := model st; images := images st;
         useFilename := useFilename st;
         includeDescription := includeDescription st; results := results st;
         isProcessing := isProcessing st; progress := progress st;
         googleSheetsUrl := v |}
  | alert _ | download _ _ _ | setTimeout _ => st
  end.

(** The state after a handler's calls, applied in order. *)
Definition commit (cs : list Call) (st : State) : State :=
  fold_left (fun s c => apply_call c s) cs st.

(** ** File intake and the collection store *)

(** The values the browser hands out during one [onDrop]: the identifier
    [Math.random().toString(36).substr(2, 9)] and the object URL drawn for
    the file at each position of the batch. *)
Record Oracle := {
  randomId : nat -> jsstring;
  createObjectURL : nat -> jsstring
}.

Definition intake (o : Oracle) (k : nat) (f : File) : ImageFile := {|
  id := randomId o k;
  file := f;
  name := file_name f;
  size :=
    toFixed (inject_Z (Z.of_N (file_size f)) / 1024 / 1024) 2 ++ utf16 " MB";
  preview :=
    if startsWith (file_type f) (utf16 "image/")
    then Some (createObjectURL o k) else None
|}.

(** [Array.from(acceptedFiles).map(file => ...)], the callback applied with
    the running index. *)
Fixpoint intake_from (o : Oracle) (k : nat) (fs : list File) : list ImageFile :=
  match fs with
  | [] => []
  | f :: rest => intake o k f :: intake_from o (S k) rest
  end.

Definition onDrop (o : Oracle) (acceptedFiles : list File) : list Call :=
  let newImages := intake_from o 0 acceptedFiles in
  [setImages (fun prev => prev ++ newImages)].

Definition jsstring_eqb (a b : jsstring) : bool :=
  if list_eq_dec N.eq_dec a b then true else false.

Definition removeImage (id' : jsstring) : list Call :=
  [setImages (fun prev =>
     filter (fun img => negb (jsstring_eqb (id img) id')) prev)].

Definition clearImages : list Call :=
  [setImages (fun _ => []); setResults []].

(** ** CSV and Sheets export *)

Definition headers (includeDescription' : bool) : list jsstring :=
  if includeDescription'
  then [utf16 "filename"; utf16 "title"; utf16 "descriptors"; utf16 "keywords"]
  else [utf16 "filename"; utf16 "title"; utf16 "keywords"].

(** [row.description || ''] *)
Definition description_or_empty (row : AnalysisResult) : jsstring :=
  match description row with
  | Some d => if truthy d then d else utf16 ""
  | None => utf16 ""
  end.

Definition values (includeDescription' : bool) (row : AnalysisResult)
  : list jsstring :=
  if includeDescription'
  then [filename row; title row; description_or_empty row; keywords row]
  else [filename row; title row; keywords row].

(** The template literal that puts a value between two double quotes. *)
Definition quoted (val : jsstring) : jsstring := [34%N] ++ val ++ [34%N].

Definition csvContent (st : State) : jsstring :=
  join [10%N]
    (join (utf16 ",") (headers (includeDescription st))
     :: map (fun row =>
               join (utf16 ",")
                 (map quoted (values (includeDescription st) row)))
          (results st)).

Definition exportToCSV (st : State) : list Call :=
  match results st with
  | [] => []
  | _ :: _ =>
      [download (utf16 "image_analysis_results.csv") (utf16 "text/csv")
         (csvContent st)]
  end.

Definition msg_missing_sheets_url : jsstring :=
  utf16 "Пожалуйста, введите URL Google Таблицы".

Definition msg_sheets_not_implemented : jsstring :=
  utf16 "Функция сохранения в Google Таблицы будет реализована в следующей версии".

Definition saveToGoogleSheets (st : State) : list Call :=
  if negb (truthy (trim (googleSheetsUrl st)))
  then [alert msg_missing_sheets_url]
  else [alert msg_sheets_not_implemented].

(** ** What the user can do between two suspensions of a running analysis

    Every control of the page stays enabled during a run except the analysis
    button itself, which is disabled while [isProcessing] is set. *)

Inductive Action :=
| TypeApiKey (v : jsstring)
| SelectModel (v : jsstring)
| DropFiles (o : Oracle) (acceptedFiles : list File)
| ClickRemove (id' : jsstring)
| ClickClear
| CheckUseFilename (v : bool)
| CheckIncludeDescription (v : bool)
| TypeGoogleSheetsUrl (v : jsstring)
| ClickExportToCSV
| ClickSaveToGoogleSheets.

(** The handler bound to each control, closed over the rendered state. *)
Definition handler (a : Action) (st : State) : list Call :=
  match a with
  | TypeApiKey v => [setApiKey v]
  | SelectModel v => [setModel v]
  | DropFiles o fs => onDrop o fs
  | ClickRemove i => removeImage i
  | ClickClear => clearImages
  | CheckUseFilename v => [setUseFilename v]
  | CheckIncludeDescription v => [setIncludeDescription v]
  | TypeGoogleSheetsUrl v => [setGoogleSheetsUrl v]
  | ClickExportToCSV => exportToCSV st
  | ClickSaveToGoogleSheets => saveToGoogleSheets st
  end.

Definition dispatch (a : Action) (st : State) : State :=
  commit (handler a st) st.

Definition dispatch_all (acts : list Action) (st : State) : State :=
  fold_left (fun s a => dispatch a s) acts st.

(** ** The analysis workflow *)

(** The three user-facing alerts of the component. *)
Definition msg_missing_api_key : jsstring :=
  utf16 "Пожалуйста, введите API ключ".

Definition msg_no_images : jsstring :=
  utf16 "Пожалуйста, загрузите изображения".

Definition MissingCredential : Call := alert msg_missing_api_key.
Definition EmptyInput : Call := alert msg_no_images.
Definition MissingDestination : Call := alert msg_missing_sheets_url.

Definition number (n : nat) : float :=
  PrimFloat.of_uint63 (Uint63.of_Z (Z.of_nat n)).

(** The object literal built for one image. *)
Definition result_for (includeDescription' : bool) (image : ImageFile)
  : AnalysisResult := {|
  filename := name image;
  title := utf16 "SEO заголовок для " ++ name image;
  description :=
    if includeDescription'
    then Some (utf16 "Детальное описание изображения " ++ name image)
    else None;
  keywords := utf16 "ключевое слово1, ключевое слово2, ключевое слово3";
  status := completed
|}.

(** How an [async] handler ends: its promise resolves, or an exception
    rejects it.  Both carry the state reached and the calls the handler
    made. *)
Inductive Outcome :=
| Resolved (final : State) (calls : list Call)
| Rejected (final : State) (calls : list Call).

Section Analysis.

(** The closure of the render in which the button was clicked. *)
Variable closure : State.

(** The user's actions while the handler is suspended in iteration [i]. *)
Variable during : nat -> list Action.

(** The [for] loop from index [i] on; [fuel] bounds the iterations left
    and [None] is the bound reached.  [st] is the current state of the
    component, [log] the calls made so far.  Reading [name] off an
    [images[i]] that is [undefined] throws, after the suspension. *)
Fixpoint analyze_loop (fuel i : nat) (newResults : list AnalysisResult)
    (st : State) (log : list Call) : option Outcome :=
  if (i <? length (images closure))%nat then
    match fuel with
    | O => None
    | S fuel' =>
        let image := nth_error (images closure) i in
        let tick :=
          setProgress
            (number i / number (length (images closure)) * 100)%float in
        let st := apply_call tick st in
        let st := dispatch_all (during i) st in
        let log := log ++ [tick; setTimeout 2000] in
        match image with
        | None => Some (Rejected st log)
        | Some image =>
            let result := result_for (includeDescription closure) image in
            analyze_loop fuel' (S i) (newResults ++ [result]) st log
        end
    end
  else
    let done :=
      [setResults newResults; setProgress 100%float;
       setIsProcessing false] in
    Some (Resolved (commit done st) (log ++ done)).

Definition analyzeImages : option Outcome :=
  if negb (truthy (trim (apiKey closure))) then
    Some (Resolved closure [MissingCredential])
  else if (length (images closure) =? 0)%nat then
    Some (Resolved closure [EmptyInput])
  else
    let start := [setIsProcessing true; setProgress 0%float] in
    analyze_loop (length (images closure)) 0 [] (commit start closure)
      start.

End Analysis.

(** ** Reference serialization, from the description of the CSV artifact *)

(** A table is written row by row: the fields of a row separated by a
    comma, the rows by a line feed, nothing else added. *)
Definition separated (sep : jsstring) (parts : list jsstring) : jsstring :=
  match parts with
  | [] => []
  | p :: rest =>
      p ++ concat (map (fun q => sep ++ q) rest)
  end.

Definition csv_text (header : list jsstring) (rows : list (list jsstring))
  : jsstring :=
  separated [10%N]
    (separated [44%N] header
     :: map (fun fields =>
               separated [44%N] (map (fun v => 34%N :: v ++ [34%N]) fields))
          rows).

(** ** The file input and the analysis button *)

(** [handleFileInput]: [e.target.files] is a [FileList] or [null]. *)
Definition handleFileInput (o : Oracle) (files : option (list File))
  : list Call :=
  match files with
  | Some acceptedFiles => onDrop o acceptedFiles
  | None => []
  end.

(** The [disabled] attribute of the analysis button:
    [isProcessing || images.length === 0 || !apiKey]. *)
Definition analyze_disabled (st : State) : bool :=
  isProcessing st || (length (images st) =? 0)%nat || negb (truthy (apiKey st)).

(** ** Concrete states used below *)

Definition a_jpg : File :=
  {| file_name := utf16 "a.jpg"; file_size := 2097152;
     file_type := utf16 "image/jpeg" |}.

Definition b_txt : File :=
  {| file_name := utf16 "b.txt"; file_size := 5243;
     file_type := utf16 "text/plain" |}.

Definition an_oracle : Oracle :=
  {| randomId := fun k => utf16 "k3x9q0z1" ++ [(48 + N.of_nat k)%N];
     createObjectURL := fun k => utf16 "blob:" ++ [(48 + N.of_nat k)%N] |}.

Definition idle : nat -> list Action := fun _ => [].

(** One picture uploaded and a key typed, description option off. *)
Definition ready : State :=
  dispatch (TypeApiKey (utf16 "sk-test"))
    (dispatch (DropFiles an_oracle [a_jpg]) initial).

(** The same with a key of two spaces. *)
Definition blank_key_state : State :=
  dispatch (TypeApiKey (utf16 "  ")) ready.

(** The state [ready] after an undisturbed analysis, and that state after
    the description option is switched on. *)
Definition analysed : State :=
  match analyzeImages ready idle with
  | Some (Resolved final _) => final
  | _ => ready
  end.

Definition toggled : State :=
  dispatch (CheckIncludeDescription true) analysed.

(** A result whose title holds a quote and a comma. *)
Definition awkward : AnalysisResult :=
  {| filename := utf16 "a.jpg";
     title := utf16 "say " ++ quoted (utf16 "hi") ++ utf16 ", ok";
     description := None; keywords := utf16 "k"; status := completed |}.

Definition awkward_state : State := commit [setResults [awkward]] initial.

(** Two pictures and one text file uploaded, a key typed. *)
Definition loaded : State :=
  dispatch (TypeApiKey (utf16 "sk-test"))
    (dispatch (DropFiles an_oracle [a_jpg; b_txt; a_jpg]) initial).

(** The user clears the collection during every suspension. *)
Definition clearing : nat -> list Action := fun _ => [ClickClear].

(** [ready] with another key, another model and the filename option on. *)
Definition ready_other : State :=
  dispatch (SelectModel (utf16 "gpt-5"))
    (dispatch (CheckUseFilename true)
       (dispatch (TypeApiKey (utf16 "sk-other")) ready)).

(** An empty file. *)
Definition empty_file : File :=
  {| file_name := utf16 "empty.png"; file_size := 0;
     file_type := utf16 "image/png" |}.

(** * Properties *)

Example utf16_ascii : utf16 "a.jpg" = [97; 46; 106; 112; 103]%N.
Proof. reflexivity. Qed.

Example utf16_cyrillic : utf16 "за" = [1079; 1072]%N.
Proof. reflexivity. Qed.

(** ** Trimming *)

Lemma trimStart_blank (s : jsstring) :
  forallb is_whitespace s = true -> trimStart s = [].
Proof.
  induction s as [|c s IH]; simpl; [reflexivity|].
  intros H. apply andb_true_iff in H as [Hc Hs].
  rewrite Hc. exact (IH Hs).
Qed.

Lemma trim_blank (s : jsstring) :
  forallb is_whitespace s = true -> trim s = [].
Proof.
  intros H. unfold trim, trimEnd. rewrite (trimStart_blank s H). reflexivity.
Qed.

(** ** Collection store *)

(** C9. Whatever the collection and the result list were, after
    [clearImages] both are empty. *)
Theorem clearImages_empties (st : State) :
  images (commit clearImages st) = []
  /\ results (commit clearImages st) = [].
Proof. split; reflexivity. Qed.

Lemma intake_from_length (o : Oracle) (fs : list File) :
  forall k, length (intake_from o k fs) = length fs.
Proof.
  induction fs as [|f fs IH]; intros k; simpl; [reflexivity|].
  now rewrite IH.
Qed.

Lemma intake_from_file (o : Oracle) (fs : list File) :
  forall k, map file (intake_from o k fs) = fs.
Proof.
  induction fs as [|f fs IH]; intros k; simpl; [reflexivity|].
  now rewrite IH.
Qed.

Lemma intake_from_name (o : Oracle) (fs : list File) :
  forall k, map name (intake_from o k fs) = map file_name fs.
Proof.
  induction fs as [|f fs IH]; intros k; simpl; [reflexivity|].
  now rewrite IH.
Qed.

Lemma onDrop_images (o : Oracle) (batch : list File) (st : State) :
  images (commit (onDrop o batch) st) = images st ++ intake_from o 0 batch.
Proof. reflexivity. Qed.

(** C8. Dropping a batch of files (empty or not) onto any collection makes
    the collection longer by exactly the size of the batch, keeps the
    records that were there as its prefix, in their order, and puts one new
    record per file behind them, in the order of the batch. *)
Theorem onDrop_appends (o : Oracle) (batch : list File) (st : State) :
  let after := images (commit (onDrop o batch) st) in
  length after = (length (images st) + length batch)%nat
  /\ firstn (length (images st)) after = images st
  /\ map file (skipn (length (images st)) after) = batch
  /\ map name (skipn (length (images st)) after) = map file_name batch.
Proof.
  cbv zeta. rewrite onDrop_images. repeat split.
  - now rewrite length_app, intake_from_length.
  - rewrite firstn_app, Nat.sub_diag, firstn_all. simpl. apply app_nil_r.
  - rewrite skipn_app, Nat.sub_diag, skipn_all. simpl. apply intake_from_file.
  - rewrite skipn_app, Nat.sub_diag, skipn_all. simpl. apply intake_from_name.
Qed.

(** ** Rejected starts of the analysis *)

(** C3. With an API key that is empty or made of whitespace only, a click
    on the analysis button ends at once in the state it started from
    (results, collection, progress and isProcessing included); the only
    call it makes is the MissingCredential alert. *)
Theorem analyzeImages_blank_key (st : State) (during : nat -> list Action) :
  forallb is_whitespace (apiKey st) = true ->
  analyzeImages st during = Some (Resolved st [MissingCredential]).
Proof.
  intros H. unfold analyzeImages. now rewrite (trim_blank _ H).
Qed.

Lemma analyzeImages_blank_key_witness :
  forallb is_whitespace (apiKey blank_key_state) = true
  /\ analyzeImages blank_key_state idle
     = Some (Resolved blank_key_state [MissingCredential]).
Proof.
  split; [reflexivity|].
  apply (analyzeImages_blank_key blank_key_state idle). reflexivity.
Defined.

(** C4, as the code has it. With an empty collection the run ends at once
    in the state it started from and never calls [setIsProcessing]; its
    only call is an alert, EmptyInput when the trimmed key is non-empty and
    MissingCredential when it is empty, the key being checked first. *)
Theorem analyzeImages_empty_collection (st : State)
    (during : nat -> list Action) :
  images st = [] ->
  exists log,
    analyzeImages st during = Some (Resolved st log)
    /\ (forall v, ~ In (setIsProcessing v) log)
    /\ (trim (apiKey st) <> [] -> log = [EmptyInput])
    /\ (trim (apiKey st) = [] -> log = [MissingCredential]).
Proof.
  intros Himg. unfold analyzeImages. rewrite Himg. simpl.
  destruct (trim (apiKey st)) as [|c k]; simpl.
  - exists [MissingCredential].
    split; [reflexivity|]. split; [|split].
    + intros v [E|[]]. discriminate E.
    + intros H. now contradiction H.
    + reflexivity.
  - exists [EmptyInput].
    split; [reflexivity|]. split; [|split].
    + intros v [E|[]]. discriminate E.
    + reflexivity.
    + intros H. discriminate H.
Qed.

Lemma analyzeImages_empty_collection_witness :
  images initial = []
  /\ exists log,
       analyzeImages initial idle = Some (Resolved initial log)
       /\ (forall v, ~ In (setIsProcessing v) log)
       /\ (trim (apiKey initial) <> [] -> log = [EmptyInput])
       /\ (trim (apiKey initial) = [] -> log = [MissingCredential]).
Proof.
  split; [reflexivity|].
  apply (analyzeImages_empty_collection initial idle). reflexivity.
Defined.

(** C4, as stated, fails in the initial state: the collection is empty and
    so is the key, and the alert raised is MissingCredential, not
    EmptyInput. *)
Lemma analyzeImages_empty_collection_counterexample :
  images initial = []
  /\ analyzeImages initial idle = Some (Resolved initial [MissingCredential])
  /\ ~ In EmptyInput [MissingCredential].
Proof.
  split; [reflexivity|]. split; [reflexivity|].
  intros [E|[]]. apply (f_equal (fun c => match c with
                                          | alert m => nth 12 m 0%N
                                          | _ => 0%N
                                          end)) in E.
  vm_compute in E. discriminate E.
Qed.

(** ** A completed analysis *)

Lemma firstn_snoc {A : Type} (l : list A) :
  forall i x, nth_error l i = Some x -> firstn (S i) l = firstn i l ++ [x].
Proof.
  induction l as [|a l IH]; intros [|i] x H; simpl in *; try discriminate.
  - now inversion H.
  - f_equal. now apply IH.
Qed.

Section Loop.

Variable closure : State.
Variable during : nat -> list Action.

(** Invariant of the loop: entering iteration [i], the accumulator holds
    the results of the first [i] images of the closure.  With as much
    fuel as iterations left, the loop resolves, and then the stored
    results are those of the whole collection, stored by the last
    [setResults] of the log. *)
Lemma analyze_loop_resolves :
  forall fuel i newResults st log,
    (i + fuel = length (images closure))%nat ->
    newResults
    = map (result_for (includeDescription closure))
        (firstn i (images closure)) ->
    exists final log',
      analyze_loop closure during fuel i newResults st log
      = Some (Resolved final (log ++ log'))
      /\ results final
         = map (result_for (includeDescription closure)) (images closure)
      /\ In (setResults
               (map (result_for (includeDescription closure))
                  (images closure))) log'.
Proof.
  induction fuel as [|fuel IH]; intros i newResults st log Hlen Hacc.
  - assert (Hi : i = length (images closure)) by lia.
    simpl. rewrite Hi, Nat.ltb_irrefl.
    rewrite Hacc, Hi, firstn_all.
    eexists. eexists. split; [reflexivity|].
    split; [reflexivity|]. left. reflexivity.
  - assert (Hi : (i < length (images closure))%nat) by lia.
    simpl. apply Nat.ltb_lt in Hi as Hb. rewrite Hb.
    destruct (nth_error (images closure) i) as [image|] eqn:Hnth.
    + edestruct (IH (S i)) as (final & log' & Hrun & Hres & Hin).
      * lia.
      * rewrite (firstn_snoc _ _ _ Hnth), map_app, <- Hacc. reflexivity.
      * rewrite Hrun. rewrite <- app_assoc.
        eexists. eexists. split; [reflexivity|].
        split; [exact Hres|]. right. right. exact Hin.
    + apply nth_error_None in Hnth. lia.
Qed.

End Loop.

Lemma result_for_filename (b : bool) (imgs : list ImageFile) :
  map filename (map (result_for b) imgs) = map name imgs.
Proof. rewrite map_map. reflexivity. Qed.

(** C1. A run started with a non-empty trimmed key on a collection of N
    images resolves, whatever the user does while it is suspended.  Its
    last [setResults] stores exactly N results, the i-th one named after
    the i-th image of the collection as it was at the start; with
    [includeDescription] on at the start every description is present and
    non-empty, with it off every description is absent. *)
Theorem analyzeImages_completes (st : State) (during : nat -> list Action) :
  trim (apiKey st) <> [] ->
  images st <> [] ->
  exists final log,
    analyzeImages st during = Some (Resolved final log)
    /\ In (setResults (results final)) log
    /\ length (results final) = length (images st)
    /\ map filename (results final) = map name (images st)
    /\ (includeDescription st = true ->
        Forall (fun r => exists d, description r = Some d /\ d <> [])
          (results final))
    /\ (includeDescription st = false ->
        Forall (fun r => description r = None) (results final)).
Proof.
  intros Hkey Himg. unfold analyzeImages.
  destruct (trim (apiKey st)) as [|c k]; [now contradiction Hkey|].
  destruct (images st) as [|img imgs] eqn:Eimgs; [now contradiction Himg|].
  cbn [truthy negb length Nat.eqb].
  rewrite <- Eimgs.
  replace (S (length imgs)) with (length (images st))
    by (rewrite Eimgs; reflexivity).
  destruct (analyze_loop_resolves st during (length (images st)) 0 []
              (commit [setIsProcessing true; setProgress 0%float] st)
              [setIsProcessing true; setProgress 0%float])
    as (final & log' & Hrun & Hres & Hin); [lia|reflexivity|].
  exists final, ([setIsProcessing true; setProgress 0%float] ++ log').
  split; [exact Hrun|]. rewrite Hres.
  split; [apply in_or_app; right; exact Hin|].
  split; [apply length_map|].
  split; [apply result_for_filename|].
  split; intros Hincl; rewrite Hincl; apply Forall_forall;
    intros r Hr; apply in_map_iff in Hr as (image & <- & _); simpl.
  - eexists. split; [reflexivity|]. discriminate.
  - reflexivity.
Qed.

Lemma analyzeImages_completes_witness :
  trim (apiKey ready) <> []
  /\ images ready <> []
  /\ exists final log,
       analyzeImages ready idle = Some (Resolved final log)
       /\ In (setResults (results final)) log
       /\ length (results final) = length (images ready)
       /\ map filename (results final) = map name (images ready)
       /\ (includeDescription ready = true ->
           Forall (fun r => exists d, description r = Some d /\ d <> [])
             (results final))
       /\ (includeDescription ready = false ->
           Forall (fun r => description r = None) (results final)).
Proof.
  assert (Hkey : trim (apiKey ready) <> []) by (vm_compute; discriminate).
  assert (Himg : images ready <> []) by (vm_compute; discriminate).
  split; [exact Hkey|]. split; [exact Himg|].
  exact (analyzeImages_completes ready idle Hkey Himg).
Defined.

(** ** CSV export *)

(** C7. With no results, [exportToCSV] makes no call at all: nothing is
    downloaded, no setter is called, and the state after the click is the
    state before it. *)
Theorem exportToCSV_no_results (st : State) :
  results st = [] ->
  exportToCSV st = []
  /\ dispatch ClickExportToCSV st = st.
Proof.
  intros H. unfold dispatch, handler, exportToCSV. rewrite H.
  split; reflexivity.
Qed.

Lemma exportToCSV_no_results_witness :
  results ready = []
  /\ exportToCSV ready = []
  /\ dispatch ClickExportToCSV ready = ready.
Proof.
  split; [reflexivity|].
  apply (exportToCSV_no_results ready). reflexivity.
Defined.

Lemma join_separated (sep : jsstring) (xs : list jsstring) :
  join sep xs = separated sep xs.
Proof.
  induction xs as [|x [|y rest] IH]; [reflexivity| |].
  - simpl. now rewrite app_nil_r.
  - change (join sep (x :: y :: rest)) with (x ++ sep ++ join sep (y :: rest)).
    rewrite IH. unfold separated. simpl. now rewrite <- app_assoc.
Qed.

(** The text built by [exportToCSV] is the reference serialization of the
    header and of the value lists of the results. *)
Lemma csvContent_table (st : State) :
  csvContent st
  = csv_text (headers (includeDescription st))
      (map (values (includeDescription st)) (results st)).
Proof.
  unfold csvContent, csv_text. rewrite !join_separated.
  change (utf16 ",") with [44%N]. f_equal. f_equal.
  rewrite map_map. apply map_ext. intros row.
  rewrite join_separated. reflexivity.
Qed.

Lemma exportToCSV_table (st : State) :
  results st <> [] ->
  exportToCSV st
  = [download (utf16 "image_analysis_results.csv") (utf16 "text/csv")
       (csv_text (headers (includeDescription st))
          (map (values (includeDescription st)) (results st)))].
Proof.
  intros H. unfold exportToCSV. rewrite <- csvContent_table.
  destruct (results st); [now contradiction H|reflexivity].
Qed.

(** The header line opens the text and a line feed follows it. *)
Lemma csv_text_first_line (header : list jsstring) (row : list jsstring)
    (rows : list (list jsstring)) :
  exists rest,
    csv_text header (row :: rows) = separated [44%N] header ++ 10%N :: rest.
Proof.
  unfold csv_text, separated at 1. simpl. eexists. reflexivity.
Qed.



(** A quote and a comma inside a value reach the file as they are. *)
Example exportToCSV_no_escaping :
  exportToCSV awkward_state
  = [download (utf16 "image_analysis_results.csv") (utf16 "text/csv")
       (utf16 "filename,title,keywords" ++ [10%N]
        ++ [34%N] ++ utf16 "a.jpg" ++ [34%N] ++ utf16 ","
        ++ [34%N] ++ utf16 "say " ++ [34%N] ++ utf16 "hi" ++ [34%N]
        ++ utf16 ", ok" ++ [34%N] ++ utf16 ","
        ++ [34%N] ++ utf16 "k" ++ [34%N])].
Proof. vm_compute. reflexivity. Qed.

(** [row.description || ''] is the description when there is one and the
    empty string when there is none. *)
Lemma description_or_empty_value (row : AnalysisResult) :
  description_or_empty row
  = match description row with Some s => s | None => [] end.
Proof.
  unfold description_or_empty. destruct (description row) as [[|c s]|];
    reflexivity.
Qed.

(** The reference text line by line: the header line, then a line feed in
    front of each row. *)
Lemma csv_text_by_lines (header : list jsstring)
    (rows : list (list jsstring)) :
  csv_text header rows
  = separated [44%N] header
    ++ concat
         (map (fun fields =>
                 [10%N]
                 ++ separated [44%N]
                      (map (fun v => 34%N :: v ++ [34%N]) fields))
            rows).
Proof.
  unfold csv_text. unfold separated at 1. now rewrite map_map.
Qed.

Lemma line_of_four (a b c d : jsstring) :
  separated [44%N] (map (fun v => 34%N :: v ++ [34%N]) [a; b; c; d])
  = ([34%N] ++ a ++ [34%N]) ++ [44%N] ++ ([34%N] ++ b ++ [34%N]) ++ [44%N]
    ++ ([34%N] ++ c ++ [34%N]) ++ [44%N] ++ ([34%N] ++ d ++ [34%N]).
Proof.
  unfold separated. simpl. rewrite <- !app_assoc. simpl.
  repeat (f_equal; try (rewrite <- !app_assoc; simpl)).
Qed.

Lemma line_of_three (a b c : jsstring) :
  separated [44%N] (map (fun v => 34%N :: v ++ [34%N]) [a; b; c])
  = ([34%N] ++ a ++ [34%N]) ++ [44%N] ++ ([34%N] ++ b ++ [34%N]) ++ [44%N]
    ++ ([34%N] ++ c ++ [34%N]).
Proof.
  unfold separated. simpl. rewrite <- !app_assoc. simpl.
  repeat (f_equal; try (rewrite <- !app_assoc; simpl)).
Qed.

(** C2, as the code has it. For a non-empty result list the layout follows
    the value of [includeDescription] at the time of the export.  On: the
    text is the line filename,title,descriptors,keywords followed, for each
    result in order, by a line feed and its 4 values (filename, title,
    description or the empty string, keywords), each between double quotes,
    with commas between them.  Off: the text is the line
    filename,title,keywords followed, for each result, by a line feed and
    its 3 values (filename, title, keywords) written the same way. *)
Theorem exportToCSV_columns (st : State) :
  results st <> [] ->
  let q := fun v : jsstring => [34%N] ++ v ++ [34%N] in
  let d := fun row : AnalysisResult =>
             match description row with Some s => s | None => [] end in
  (includeDescription st = true ->
   exportToCSV st
   = [download (utf16 "image_analysis_results.csv") (utf16 "text/csv")
        (utf16 "filename,title,descriptors,keywords"
         ++ concat
              (map (fun row =>
                      [10%N] ++ q (filename row) ++ [44%N] ++ q (title row)
                      ++ [44%N] ++ q (d row) ++ [44%N] ++ q (keywords row))
                 (results st)))])
  /\ (includeDescription st = false ->
      exportToCSV st
      = [download (utf16 "image_analysis_results.csv") (utf16 "text/csv")
           (utf16 "filename,title,keywords"
            ++ concat
                 (map (fun row =>
                         [10%N] ++ q (filename row) ++ [44%N]
                         ++ q (title row) ++ [44%N] ++ q (keywords row))
                    (results st)))]).
Proof.
  intros Hres q d. split; intros Hincl;
    rewrite (exportToCSV_table st Hres), Hincl, csv_text_by_lines, map_map.
  - change (separated [44%N] (headers true))
      with (utf16 "filename,title,descriptors,keywords").
    apply (f_equal (fun rest => [download _ _ (_ ++ concat rest)])).
    apply map_ext. intros row. unfold values.
    rewrite line_of_four, description_or_empty_value. reflexivity.
  - change (separated [44%N] (headers false))
      with (utf16 "filename,title,keywords").
    apply (f_equal (fun rest => [download _ _ (_ ++ concat rest)])).
    apply map_ext. intros row. unfold values.
    rewrite line_of_three. reflexivity.
Qed.

Lemma exportToCSV_columns_witness :
  results toggled <> []
  /\ let q := fun v : jsstring => [34%N] ++ v ++ [34%N] in
     let d := fun row : AnalysisResult =>
                match description row with Some s => s | None => [] end in
     (includeDescription toggled = true ->
      exportToCSV toggled
      = [download (utf16 "image_analysis_results.csv") (utf16 "text/csv")
           (utf16 "filename,title,descriptors,keywords"
            ++ concat
                 (map (fun row =>
                         [10%N] ++ q (filename row) ++ [44%N]
                         ++ q (title row) ++ [44%N] ++ q (d row) ++ [44%N]
                         ++ q (keywords row))
                    (results toggled)))])
     /\ (includeDescription toggled = false ->
         exportToCSV toggled
         = [download (utf16 "image_analysis_results.csv") (utf16 "text/csv")
              (utf16 "filename,title,keywords"
               ++ concat
                    (map (fun row =>
                            [10%N] ++ q (filename row) ++ [44%N]
                            ++ q (title row) ++ [44%N] ++ q (keywords row))
                       (results toggled)))]).
Proof.
  assert (H : results toggled <> []) by (vm_compute; discriminate).
  split; [exact H|]. exact (exportToCSV_columns toggled H).
Defined.

(** C2, as stated, fails: the results of [analysed] come from a run with
    the description option off, the option is switched on afterwards, and
    the export of these same results has the 4-column header and a row of
    4 fields. *)
Lemma exportToCSV_columns_counterexample :
  includeDescription ready = false
  /\ (exists log, analyzeImages ready idle = Some (Resolved analysed log))
  /\ results toggled = results analysed
  /\ results toggled <> []
  /\ exportToCSV toggled
     = [download (utf16 "image_analysis_results.csv") (utf16 "text/csv")
          (utf16 "filename,title,descriptors,keywords" ++ [10%N]
           ++ quoted (utf16 "a.jpg") ++ [44%N]
           ++ quoted (utf16 "SEO заголовок для a.jpg") ++ [44%N]
           ++ quoted (utf16 "") ++ [44%N]
           ++ quoted
                (utf16 "ключевое слово1, ключевое слово2, ключевое слово3"))]
  /\ utf16 "filename,title,descriptors,keywords" <> utf16 "filename,title,keywords".
Proof.
  split; [reflexivity|].
  split; [eexists; vm_compute; reflexivity|].
  split; [reflexivity|].
  split; [vm_compute; discriminate|].
  split; [vm_compute; reflexivity|].
  vm_compute. discriminate.
Qed.

(** C10. In the 4-column layout the header has the 4 labels and the row
    written for a result has exactly these 4 values: filename, title, the
    description or, when it is absent, the empty string, and keywords.  So
    every row has as many fields as the header, and the third field of a
    result without description is the empty string. *)
Theorem exportToCSV_absent_description (st : State) :
  results st <> [] ->
  includeDescription st = true ->
  let header :=
    [utf16 "filename"; utf16 "title"; utf16 "descriptors"; utf16 "keywords"] in
  let fields := fun row : AnalysisResult =>
    [filename row; title row;
     match description row with Some s => s | None => [] end;
     keywords row] in
  exportToCSV st
  = [download (utf16 "image_analysis_results.csv") (utf16 "text/csv")
       (csv_text header (map fields (results st)))]
  /\ Forall
       (fun row =>
          length (fields row) = length header
          /\ (description row = None ->
              fields row = [filename row; title row; []; keywords row]))
       (results st).
Proof.
  intros Hres Hincl header fields. split.
  - rewrite (exportToCSV_table st Hres), Hincl.
    apply (f_equal (fun rows => [download _ _ (csv_text _ rows)])).
    apply map_ext. intros row. unfold values, fields.
    now rewrite description_or_empty_value.
  - apply Forall_forall. intros row _. split; [reflexivity|].
    intros Hd. unfold fields. now rewrite Hd.
Qed.

Lemma exportToCSV_absent_description_witness :
  results toggled <> []
  /\ includeDescription toggled = true
  /\ let header :=
       [utf16 "filename"; utf16 "title"; utf16 "descriptors";
        utf16 "keywords"] in
     let fields := fun row : AnalysisResult =>
       [filename row; title row;
        match description row with Some s => s | None => [] end;
        keywords row] in
     exportToCSV toggled
     = [download (utf16 "image_analysis_results.csv") (utf16 "text/csv")
          (csv_text header (map fields (results toggled)))]
     /\ Forall
          (fun row =>
             length (fields row) = length header
             /\ (description row = None ->
                 fields row = [filename row; title row; []; keywords row]))
          (results toggled).
Proof.
  assert (H : results toggled <> []) by (vm_compute; discriminate).
  split; [exact H|]. split; [reflexivity|].
  exact (exportToCSV_absent_description toggled H eq_refl).
Defined.

(** ** File intake *)

Lemma startsWith_prefix (p : jsstring) :
  forall s, startsWith s p = true <-> exists rest, s = p ++ rest.
Proof.
  induction p as [|a p IH]; intros s.
  - destruct s; simpl; split; eauto.
  - destruct s as [|b s]; simpl.
    + split; [discriminate|]. intros [rest H]. discriminate H.
    + rewrite andb_true_iff, N.eqb_eq, IH. split.
      * intros [-> [rest ->]]. now exists rest.
      * intros [rest H]. inversion H. split; [reflexivity|]. now exists rest.
Qed.

Lemma log2_div10 (n : N) : (10 <= n)%N -> (N.log2 (n / 10) < N.log2 n)%N.
Proof.
  intros H.
  assert (H2 : (n / 10 <= n / 2)%N) by (apply N.div_le_compat_l; lia).
  assert (Hq : (0 < n / 2)%N) by (apply N.div_str_pos; lia).
  pose proof (N.log2_double (n / 2) Hq) as Hd.
  assert (Hle : (2 * (n / 2) <= n)%N) by (apply N.Div0.mul_div_le).
  apply N.log2_le_mono in Hle. apply N.log2_le_mono in H2. lia.
Qed.

(** Fuel beyond the binary logarithm of the number changes nothing. *)
Lemma digits_fuel_enough :
  forall k1 k2 n,
    (N.to_nat (N.log2 n) < k1)%nat -> (N.to_nat (N.log2 n) < k2)%nat ->
    digits_fuel k1 n = digits_fuel k2 n.
Proof.
  induction k1 as [|k1 IH]; intros [|k2] n H1 H2; try lia.
  simpl. destruct (n <? 10)%N eqn:E; [reflexivity|].
  apply N.ltb_ge in E. pose proof (log2_div10 n E) as Hlog.
  f_equal. apply IH; lia.
Qed.

Lemma decimal_digit (n : N) : (n < 10)%N -> decimal n = [(48 + n)%N].
Proof.
  intros H. unfold decimal. simpl.
  apply N.ltb_lt in H as Hb. rewrite Hb. simpl.
  now rewrite N.mod_small.
Qed.

Lemma decimal_step (n : N) :
  (10 <= n)%N -> decimal n = decimal (n / 10) ++ [(48 + n mod 10)%N].
Proof.
  intros H. unfold decimal at 1. simpl.
  apply N.ltb_ge in H as Hb. rewrite Hb. f_equal.
  pose proof (log2_div10 n H) as Hlog.
  apply digits_fuel_enough; lia.
Qed.

Lemma decimal_length (n : N) : (1 <= length (decimal n))%nat.
Proof.
  unfold decimal. simpl. rewrite length_app. simpl. lia.
Qed.

Example decimal_examples :
  decimal 0 = utf16 "0" /\ decimal 7 = utf16 "7"
  /\ decimal 200 = utf16 "200" /\ decimal 11774 = utf16 "11774".
Proof. repeat split. Qed.

(** The number [toFixed(2)] prints for [s / 1024 / 1024]: hundredths,
    half a hundredth rounded up. *)
Lemma toFixed_hundredths (s : N) :
  Z.to_N
    (Qfloor
       (inject_Z (Z.of_N s) / 1024 / 1024 * inject_Z (10 ^ Z.of_nat 2)
        + (1 # 2)))
  = ((200 * s + 1048576) / 2097152)%N.
Proof.
  assert (E : inject_Z (Z.of_N s) / 1024 / 1024 * inject_Z (10 ^ Z.of_nat 2)
              + (1 # 2)
              == (200 * Z.of_N s + 1048576) # 2097152).
  { change (10 ^ Z.of_nat 2)%Z with 100%Z.
    generalize (Z.of_N s) as z. intros z.
    unfold Qeq, Qdiv, Qmult, Qplus, Qinv, inject_Z. cbn [Qnum Qden].
    change (Z.pos (1 * 1024 * 1024 * 1 * 2)) with 2097152%Z.
    change (Z.pos (1 * 1024 * 1024 * 1)) with 1048576%Z. lia. }
  rewrite E. unfold Qfloor.
  change (Z.pos 2097152) with (Z.of_N 2097152).
  change 1048576%Z with (Z.of_N 1048576).
  change 200%Z with (Z.of_N 200).
  rewrite <- N2Z.inj_mul, <- N2Z.inj_add, <- N2Z.inj_div. apply N2Z.id.
Qed.

(** Padding to three characters and the point before the last two: the
    digits of [n / 100], the point, the tens and the units of [n]. *)
Lemma point_before_last_two (n : N) :
  let m := decimal n in
  let k := length m in
  let m := if (k <=? 2)%nat then repeat 48%N (2 + 1 - k) ++ m else m in
  let k := length m in
  firstn (k - 2) m ++ [46%N] ++ skipn (k - 2) m
  = decimal (n / 100)
      ++ [46; 48 + (n / 10) mod 10; 48 + n mod 10]%N.
Proof.
  cbv zeta.
  destruct (N.lt_ge_cases n 10) as [H10|H10].
  - rewrite (decimal_digit n H10).
    rewrite (N.div_small n 100), (N.div_small n 10), (N.mod_small n 10)
      by lia.
    reflexivity.
  - rewrite (decimal_step n H10).
    destruct (N.lt_ge_cases n 100) as [H100|H100].
    + assert (Hq : (n / 10 < 10)%N) by (apply N.Div0.div_lt_upper_bound; lia).
      rewrite (decimal_digit _ Hq).
      rewrite (N.div_small n 100), (N.mod_small (n / 10) 10) by lia.
      reflexivity.
    + assert (Hq : (10 <= n / 10)%N)
        by (apply N.div_le_lower_bound; lia).
      rewrite (decimal_step _ Hq), N.Div0.div_div.
      change (10 * 10)%N with 100%N.
      set (D := decimal (n / 100)).
      pose proof (decimal_length (n / 100)) as HD. fold D in HD.
      rewrite <- app_assoc. simpl ([_] ++ [_]).
      rewrite length_app. simpl (length [_; _]).
      destruct (length D + 2 <=? 2)%nat eqn:E;
        [apply Nat.leb_le in E; lia|].
      rewrite length_app. simpl (length [_; _]).
      replace (length D + 2 - 2)%nat with (length D + 0)%nat by lia.
      rewrite firstn_app_2, skipn_app, skipn_all2 by lia.
      replace (length D + 0 - length D)%nat with 0%nat by lia.
      simpl. now rewrite app_nil_r.
Qed.

Lemma toFixed_size (s : N) :
  toFixed (inject_Z (Z.of_N s) / 1024 / 1024) 2
  = let n := ((200 * s + 1048576) / 2097152)%N in
    decimal (n / 100) ++ [46; 48 + (n / 10) mod 10; 48 + n mod 10]%N.
Proof.
  unfold toFixed. rewrite toFixed_hundredths.
  apply point_before_last_two.
Qed.

Lemma intake_label (o : Oracle) (k : nat) (f : File) :
  exists n,
    (2097152 * n <= 200 * file_size f + 1048576 < 2097152 * (n + 1))%N
    /\ size (intake o k f)
       = decimal (n / 100) ++ [46; 48 + (n / 10) mod 10; 48 + n mod 10]%N
           ++ utf16 " MB".
Proof.
  exists ((200 * file_size f + 1048576) / 2097152)%N. split.
  - split.
    + apply N.Div0.mul_div_le.
    + rewrite N.add_1_r. apply N.mul_succ_div_gt. discriminate.
  - unfold intake. cbn [size]. rewrite toFixed_size. cbv zeta.
    now rewrite <- app_assoc.
Qed.

(** C6. Each file of a dropped batch gets one record, in order.  The record
    has a preview exactly when the MIME type of the file begins with
    image/.  Its size label is the number of hundredths of a MiB nearest
    to the size (the upper one on a tie), written with its two last digits
    behind the point, followed by " MB"; for 2,097,152 bytes it is
    "2.00 MB". *)
Theorem onDrop_intake (o : Oracle) (batch : list File) (st : State) :
  exists news,
    images (commit (onDrop o batch) st) = images st ++ news
    /\ Forall2
         (fun f image =>
            file image = f
            /\ (preview image <> None
                <-> exists rest, file_type f = utf16 "image/" ++ rest)
            /\ (exists n,
                  (2097152 * n <= 200 * file_size f + 1048576
                   < 2097152 * (n + 1))%N
                  /\ size image
                     = decimal (n / 100)
                         ++ [46; 48 + (n / 10) mod 10; 48 + n mod 10]%N
                         ++ utf16 " MB")
            /\ (file_size f = 2097152%N -> size image = utf16 "2.00 MB"))
         batch news.
Proof.
  exists (intake_from o 0 batch). split; [apply onDrop_images|].
  generalize 0%nat as k. induction batch as [|f fs IH]; intros k;
    simpl; constructor; [|apply IH].
  split; [reflexivity|]. split; [|split].
  - unfold intake; cbn [preview].
    pose proof (startsWith_prefix (utf16 "image/") (file_type f)) as Hp.
    destruct (startsWith (file_type f) (utf16 "image/")); split.
    + intros _. apply Hp. reflexivity.
    + intros _. discriminate.
    + intros H. now contradiction H.
    + intros H. apply Hp in H. discriminate H.
  - apply intake_label.
  - intros Hs. unfold intake; cbn [size]. rewrite Hs. reflexivity.
Qed.

(** The two files of the upload scenario. *)
Example intake_scenario :
  map (fun image => (name image, size image, preview image))
    (images (dispatch (DropFiles an_oracle [a_jpg; b_txt]) initial))
  = [(utf16 "a.jpg", utf16 "2.00 MB", Some (utf16 "blob:0"));
     (utf16 "b.txt", utf16 "0.01 MB", None)].
Proof. vm_compute. reflexivity. Qed.

(** * Further properties of the handlers *)

(** ** Trimming, continued *)

Lemma trimStart_nil (s : jsstring) :
  trimStart s = [] -> forallb is_whitespace s = true.
Proof.
  induction s as [|c s IH]; simpl; [reflexivity|].
  destruct (is_whitespace c); [exact IH|discriminate].
Qed.

Lemma trimStart_head (s : jsstring) (c : code_unit) (r : jsstring) :
  trimStart s = c :: r -> is_whitespace c = false.
Proof.
  induction s as [|a s IH]; simpl; [discriminate|].
  destruct (is_whitespace a) eqn:E; [exact IH|].
  intros H. inversion H. subst. exact E.
Qed.

Lemma forallb_rev {A : Type} (p : A -> bool) (l : list A) :
  forallb p (rev l) = true -> forallb p l = true.
Proof.
  rewrite !forallb_forall. intros H x Hx. apply H. now apply in_rev in Hx.
Qed.

(** The trimmed string is empty exactly when every code unit of the string
    is white space. *)
Lemma trim_nil_iff (s : jsstring) :
  trim s = [] <-> forallb is_whitespace s = true.
Proof.
  split; [|apply trim_blank].
  unfold trim, trimEnd. intros H.
  assert (H1 : trimStart (rev (trimStart s)) = []).
  { destruct (trimStart (rev (trimStart s))) as [|c l]; [reflexivity|].
    simpl in H. apply app_eq_nil in H as [_ H]. discriminate H. }
  apply trimStart_nil, forallb_rev in H1.
  apply trimStart_nil.
  destruct (trimStart s) as [|c r] eqn:E; [reflexivity|].
  apply trimStart_head in E. simpl in H1. rewrite E in H1. discriminate H1.
Qed.

Lemma truthy_trim (s : jsstring) :
  truthy (trim s) = negb (forallb is_whitespace s).
Proof.
  destruct (forallb is_whitespace s) eqn:E.
  - now rewrite (trim_blank s E).
  - destruct (trim s) eqn:T; [|reflexivity].
    apply trim_nil_iff in T. congruence.
Qed.

(** The two analysis alerts and the two Sheets alerts differ. *)
Lemma alerts_differ :
  MissingCredential <> EmptyInput
  /\ MissingDestination <> alert msg_sheets_not_implemented.
Proof.
  split; intros E;
    apply (f_equal (fun c => match c with
                             | alert m => nth 0 m 0%N + nth 12 m 0%N
                             | _ => 0
                             end)%N) in E;
    vm_compute in E; discriminate E.
Qed.

(** ** Sheets export *)

(** X1. [saveToGoogleSheets] changes no state cell and makes exactly one
    call, an alert: MissingDestination when the URL is empty or white space
    only, the not-implemented notice otherwise. *)
Theorem saveToGoogleSheets_alerts (st : State) :
  dispatch ClickSaveToGoogleSheets st = st
  /\ (forallb is_whitespace (googleSheetsUrl st) = true ->
      saveToGoogleSheets st = [MissingDestination])
  /\ (forallb is_whitespace (googleSheetsUrl st) = false ->
      saveToGoogleSheets st = [alert msg_sheets_not_implemented]).
Proof.
  unfold dispatch, handler, saveToGoogleSheets. rewrite truthy_trim.
  destruct (forallb is_whitespace (googleSheetsUrl st));
    cbn [negb]; (split; [reflexivity|]); split; intros H;
    first [discriminate H | reflexivity].
Qed.

(** ** Removing records *)

Lemma jsstring_eqb_eq (a b : jsstring) : jsstring_eqb a b = true <-> a = b.
Proof.
  unfold jsstring_eqb. destruct (list_eq_dec N.eq_dec a b); split;
    congruence.
Qed.

Lemma jsstring_eqb_neq (a b : jsstring) :
  jsstring_eqb a b = false <-> a <> b.
Proof.
  unfold jsstring_eqb. destruct (list_eq_dec N.eq_dec a b); split;
    congruence.
Qed.

Lemma State_ext (s t : State) :
  apiKey s = apiKey t -> model s = model t -> images s = images t ->
  useFilename s = useFilename t ->
  includeDescription s = includeDescription t -> results s = results t ->
  isProcessing s = isProcessing t -> progress s = progress t ->
  googleSheetsUrl s = googleSheetsUrl t -> s = t.
Proof.
  destruct s, t; simpl; intros; subst; reflexivity.
Qed.

Lemma removeImage_images (i : jsstring) (st : State) :
  images (dispatch (ClickRemove i) st)
  = filter (fun img => negb (jsstring_eqb (id img) i)) (images st).
Proof. reflexivity. Qed.

Lemma filter_keeps_others (i : jsstring) (l : list ImageFile) :
  ~ In i (map id l) ->
  filter (fun img => negb (jsstring_eqb (id img) i)) l = l.
Proof.
  induction l as [|x l IH]; simpl; [reflexivity|].
  intros H. destruct (jsstring_eqb (id x) i) eqn:E.
  - apply jsstring_eqb_eq in E. tauto.
  - simpl. f_equal. apply IH. tauto.
Qed.

(** X2. Removing an identifier that no record carries changes nothing. *)
Theorem removeImage_absent (i : jsstring) (st : State) :
  ~ In i (map id (images st)) ->
  dispatch (ClickRemove i) st = st.
Proof.
  intros H. apply State_ext; try reflexivity.
  rewrite removeImage_images. now apply filter_keeps_others.
Qed.

Lemma removeImage_absent_witness :
  ~ In (utf16 "nobody") (map id (images loaded))
  /\ dispatch (ClickRemove (utf16 "nobody")) loaded = loaded.
Proof.
  assert (H : ~ In (utf16 "nobody") (map id (images loaded))).
  { vm_compute. intros [E|[E|[E|[]]]]; discriminate E. }
  split; [exact H|]. exact (removeImage_absent (utf16 "nobody") loaded H).
Defined.

(** X3. With identifiers unique in the collection, removing the identifier
    of a record takes out that record alone: the records before it and the
    records behind it stay, in their order. *)
Theorem removeImage_unique (st : State) (l1 l2 : list ImageFile)
    (img : ImageFile) :
  images st = l1 ++ img :: l2 ->
  NoDup (map id (images st)) ->
  images (dispatch (ClickRemove (id img)) st) = l1 ++ l2.
Proof.
  intros E Hnd. rewrite removeImage_images, E. rewrite E in Hnd.
  rewrite map_app in Hnd. simpl in Hnd.
  pose proof (NoDup_remove_2 _ _ _ Hnd) as Hout.
  rewrite in_app_iff in Hout.
  rewrite filter_app. simpl.
  assert (Hself : jsstring_eqb (id img) (id img) = true)
    by now apply jsstring_eqb_eq.
  rewrite Hself. simpl.
  rewrite !filter_keeps_others by tauto. reflexivity.
Qed.

Lemma removeImage_unique_witness :
  exists l1 l2 img,
    images loaded = l1 ++ img :: l2
    /\ NoDup (map id (images loaded))
    /\ images (dispatch (ClickRemove (id img)) loaded) = l1 ++ l2.
Proof.
  assert (Hnd : NoDup (map id (images loaded))).
  { vm_compute. repeat constructor; simpl;
      intros H; repeat (destruct H as [H|H]; try discriminate H); exact H. }
  exists (firstn 1 (images loaded)), (skipn 2 (images loaded)),
    (nth 1 (images loaded) (intake an_oracle 0 a_jpg)).
  assert (E : images loaded
              = firstn 1 (images loaded)
                  ++ nth 1 (images loaded) (intake an_oracle 0 a_jpg)
                  :: skipn 2 (images loaded)) by reflexivity.
  split; [exact E|]. split; [exact Hnd|].
  exact (removeImage_unique loaded _ _ _ E Hnd).
Defined.

(** X4. After [removeImage] no record carries the identifier, whether one
    or several did; every record with another identifier is still there;
    the collection is shorter by the number of records that carried it; the
    result list is untouched. *)
Theorem removeImage_all (i : jsstring) (st : State) :
  let after := dispatch (ClickRemove i) st in
  ~ In i (map id (images after))
  /\ (forall img, In img (images st) -> id img <> i ->
      In img (images after))
  /\ (length (images after)
      + count_occ (list_eq_dec N.eq_dec) (map id (images st)) i
      = length (images st))%nat
  /\ results after = results st.
Proof.
  cbv zeta. rewrite removeImage_images. repeat split.
  - rewrite in_map_iff. intros (x & Hx & Hin).
    apply filter_In in Hin as [_ Hk]. subst i.
    assert (E : jsstring_eqb (id x) (id x) = true)
      by now apply jsstring_eqb_eq.
    rewrite E in Hk. discriminate Hk.
  - intros img Hin Hne. apply filter_In. split; [exact Hin|].
    apply jsstring_eqb_neq in Hne. now rewrite Hne.
  - induction (images st) as [|x l IH]; simpl; [reflexivity|].
    destruct (list_eq_dec N.eq_dec (id x) i) as [E|E].
    + apply jsstring_eqb_eq in E as Eb. rewrite Eb. simpl. lia.
    + apply jsstring_eqb_neq in E as Eb. rewrite Eb. simpl. lia.
Qed.

(** ** Identifiers *)

Lemma intake_from_id (o : Oracle) (fs : list File) :
  forall k, map id (intake_from o k fs) = map (randomId o) (seq k (length fs)).
Proof.
  induction fs as [|f fs IH]; intros k; simpl; [reflexivity|].
  now rewrite IH.
Qed.




(** ** Undoing a drop *)

Lemma dispatch_removes (ids : list jsstring) :
  forall st,
    let st' := dispatch_all (map ClickRemove ids) st in
    images st'
    = fold_left
        (fun l i => filter (fun img => negb (jsstring_eqb (id img) i)) l)
        ids (images st)
    /\ apiKey st' = apiKey st /\ model st' = model st
    /\ useFilename st' = useFilename st
    /\ includeDescription st' = includeDescription st
    /\ results st' = results st /\ isProcessing st' = isProcessing st
    /\ progress st' = progress st
    /\ googleSheetsUrl st' = googleSheetsUrl st.
Proof.
  induction ids as [|i ids IH]; intros st; cbv zeta.
  - repeat split.
  - change (dispatch_all (map ClickRemove (i :: ids)) st)
      with (dispatch_all (map ClickRemove ids) (dispatch (ClickRemove i) st)).
    destruct (IH (dispatch (ClickRemove i) st))
      as (H1 & H2 & H3 & H4 & H5 & H6 & H7 & H8 & H9).
    repeat split; assumption.
Qed.

Lemma removes_app (ids : list jsstring) :
  forall a b : list ImageFile,
    fold_left
      (fun l i => filter (fun img => negb (jsstring_eqb (id img) i)) l)
      ids (a ++ b)
    = fold_left
        (fun l i => filter (fun img => negb (jsstring_eqb (id img) i)) l)
        ids a
      ++ fold_left
           (fun l i => filter (fun img => negb (jsstring_eqb (id img) i)) l)
           ids b.
Proof.
  induction ids as [|i ids IH]; intros a b; simpl; [reflexivity|].
  now rewrite filter_app, IH.
Qed.

Lemma removes_fresh (ids : list jsstring) :
  forall l : list ImageFile,
    (forall i, In i ids -> ~ In i (map id l)) ->
    fold_left
      (fun l i => filter (fun img => negb (jsstring_eqb (id img) i)) l)
      ids l
    = l.
Proof.
  induction ids as [|i ids IH]; intros l H; simpl; [reflexivity|].
  rewrite filter_keeps_others by (apply H; now left).
  apply IH. intros j Hj. apply H. now right.
Qed.

Lemma removes_covered (ids : list jsstring) :
  forall l : list ImageFile,
    (forall x, In x l -> In (id x) ids) ->
    fold_left
      (fun l i => filter (fun img => negb (jsstring_eqb (id img) i)) l)
      ids l
    = [].
Proof.
  induction ids as [|i ids IH]; intros l H; simpl.
  - destruct l as [|x l]; [reflexivity|]. destruct (H x). now left.
  - apply IH. intros x Hx. apply filter_In in Hx as [Hx Hk].
    destruct (H x Hx) as [E|Hin]; [|exact Hin].
    assert (Eb : jsstring_eqb (id x) i = true)
      by (apply jsstring_eqb_eq; congruence).
    rewrite Eb in Hk. discriminate Hk.
Qed.

(** X6. Dropping a batch and then removing, one after the other, the
    identifiers drawn for it brings the page back to the state before the
    drop, provided none of these identifiers was in the collection. *)
Theorem drop_then_remove (o : Oracle) (fs : list File) (st : State) :
  (forall k, (k < length fs)%nat ->
   ~ In (randomId o k) (map id (images st))) ->
  dispatch_all
    (map (fun k => ClickRemove (randomId o k)) (seq 0 (length fs)))
    (dispatch (DropFiles o fs) st)
  = st.
Proof.
  intros Hfresh.
  rewrite <- (map_map (randomId o) ClickRemove).
  destruct (dispatch_removes (map (randomId o) (seq 0 (length fs)))
              (dispatch (DropFiles o fs) st))
    as (H1 & H2 & H3 & H4 & H5 & H6 & H7 & H8 & H9).
  apply State_ext; try assumption.
  rewrite H1.
  change (images (dispatch (DropFiles o fs) st))
    with (images st ++ intake_from o 0 fs).
  rewrite removes_app, removes_fresh, removes_covered.
  - apply app_nil_r.
  - intros x Hx. rewrite <- intake_from_id. now apply in_map.
  - intros i Hi. apply in_map_iff in Hi as (k & <- & Hk).
    apply in_seq in Hk. apply Hfresh. lia.
Qed.

Lemma drop_then_remove_witness :
  (forall k, (k < length [a_jpg; b_txt])%nat ->
   ~ In (randomId an_oracle k) (map id (images initial)))
  /\ dispatch_all
       (map (fun k => ClickRemove (randomId an_oracle k))
          (seq 0 (length [a_jpg; b_txt])))
       (dispatch (DropFiles an_oracle [a_jpg; b_txt]) initial)
     = initial.
Proof.
  assert (H : forall k, (k < length [a_jpg; b_txt])%nat ->
              ~ In (randomId an_oracle k) (map id (images initial))).
  { intros k _ Hin. exact Hin. }
  split; [exact H|].
  exact (drop_then_remove an_oracle [a_jpg; b_txt] initial H).
Defined.

(** ** The calls and the final state of a run *)

Lemma skipn_nth_error {A : Type} (l : list A) :
  forall i x, nth_error l i = Some x -> skipn i l = x :: skipn (S i) l.
Proof.
  induction l as [|a l IH]; intros [|i] x H; simpl in *; try discriminate.
  - now inversion H.
  - now apply IH.
Qed.

Section Run.

Variable closure : State.
Variable during : nat -> list Action.

(** The loop computed in closed form: the state is threaded through the
    iterations left, each one a [setProgress] followed by the user's
    actions of that suspension, and the three final calls are committed on
    top; the log grows by two calls per iteration and by the final
    three. *)
Lemma analyze_loop_closed_form :
  forall fuel i newResults st log,
    (i + fuel = length (images closure))%nat ->
    analyze_loop closure during fuel i newResults st log
    = Some
        (Resolved
           (commit
              [setResults
                 (newResults
                  ++ map (result_for (includeDescription closure))
                       (skipn i (images closure)));
               setProgress 100%float; setIsProcessing false]
              (fold_left
                 (fun s j =>
                    dispatch_all (during j)
                      (apply_call
                         (setProgress
                            (number j / number (length (images closure))
                             * 100)%float) s))
                 (seq i fuel) st))
           (log
            ++ flat_map
                 (fun j =>
                    [setProgress
                       (number j / number (length (images closure))
                        * 100)%float;
                     setTimeout 2000])
                 (seq i fuel)
            ++ [setResults
                  (newResults
                   ++ map (result_for (includeDescription closure))
                        (skipn i (images closure)));
                setProgress 100%float; setIsProcessing false])).
Proof.
  induction fuel as [|fuel IH]; intros i newResults st log Hlen.
  - assert (Hi : i = length (images closure)) by lia.
    simpl. rewrite Hi, Nat.ltb_irrefl, skipn_all, app_nil_r. reflexivity.
  - assert (Hi : (i < length (images closure))%nat) by lia.
    cbn [analyze_loop]. apply Nat.ltb_lt in Hi as Hb. rewrite Hb.
    destruct (nth_error (images closure) i) as [image|] eqn:Hnth.
    + rewrite IH by lia.
      rewrite (skipn_nth_error _ _ _ Hnth).
      cbn [map seq flat_map fold_left].
      rewrite <- !app_assoc. reflexivity.
    + apply nth_error_None in Hnth. lia.
Qed.

End Run.

(** A started run, in closed form. *)
Lemma analyzeImages_closed_form (st : State) (during : nat -> list Action) :
  trim (apiKey st) <> [] ->
  images st <> [] ->
  analyzeImages st during
  = Some
      (Resolved
         (commit
            [setResults
               (map (result_for (includeDescription st)) (images st));
             setProgress 100%float; setIsProcessing false]
            (fold_left
               (fun s j =>
                  dispatch_all (during j)
                    (apply_call
                       (setProgress
                          (number j / number (length (images st))
                           * 100)%float) s))
               (seq 0 (length (images st)))
               (commit [setIsProcessing true; setProgress 0%float] st)))
         ([setIsProcessing true; setProgress 0%float]
          ++ flat_map
               (fun j =>
                  [setProgress
                     (number j / number (length (images st)) * 100)%float;
                   setTimeout 2000])
               (seq 0 (length (images st)))
          ++ [setResults
                (map (result_for (includeDescription st)) (images st));
              setProgress 100%float; setIsProcessing false])).
Proof.
  intros Hkey Himg. unfold analyzeImages.
  destruct (trim (apiKey st)) as [|c k]; [now contradiction Hkey|].
  destruct (images st) as [|img imgs] eqn:Eimgs; [now contradiction Himg|].
  cbn [truthy negb length Nat.eqb]. rewrite <- Eimgs.
  replace (S (length imgs)) with (length (images st))
    by (rewrite Eimgs; reflexivity).
  rewrite analyze_loop_closed_form by lia. reflexivity.
Qed.

(** X7. A started run makes these calls and no others, in this order:
    [setIsProcessing(true)] and [setProgress(0)]; for each image, in order,
    [setProgress] with its share and one suspension of 2000 ms; then
    [setResults], [setProgress(100)] and [setIsProcessing(false)].  Whatever
    the user did meanwhile, it ends with [isProcessing] off and [progress]
    at 100. *)
Theorem analyzeImages_calls (st : State) (during : nat -> list Action) :
  trim (apiKey st) <> [] ->
  images st <> [] ->
  exists final,
    analyzeImages st during
    = Some
        (Resolved final
           ([setIsProcessing true; setProgress 0%float]
            ++ flat_map
                 (fun j =>
                    [setProgress
                       (number j / number (length (images st))
                        * 100)%float;
                     setTimeout 2000])
                 (seq 0 (length (images st)))
            ++ [setResults
                  (map (result_for (includeDescription st)) (images st));
                setProgress 100%float; setIsProcessing false]))
    /\ isProcessing final = false
    /\ progress final = 100%float.
Proof.
  intros Hkey Himg. eexists. split.
  - apply (analyzeImages_closed_form st during Hkey Himg).
  - split; reflexivity.
Qed.

Lemma analyzeImages_calls_witness :
  trim (apiKey loaded) <> []
  /\ images loaded <> []
  /\ exists final,
       analyzeImages loaded clearing
       = Some
           (Resolved final
              ([setIsProcessing true; setProgress 0%float]
               ++ flat_map
                    (fun j =>
                       [setProgress
                          (number j / number (length (images loaded))
                           * 100)%float;
                        setTimeout 2000])
                    (seq 0 (length (images loaded)))
               ++ [setResults
                     (map (result_for (includeDescription loaded))
                        (images loaded));
                   setProgress 100%float; setIsProcessing false]))
       /\ isProcessing final = false
       /\ progress final = 100%float.
Proof.
  assert (Hkey : trim (apiKey loaded) <> []) by (vm_compute; discriminate).
  assert (Himg : images loaded <> []) by (vm_compute; discriminate).
  split; [exact Hkey|]. split; [exact Himg|].
  exact (analyzeImages_calls loaded clearing Hkey Himg).
Defined.

(** With nothing done during the suspensions only [progress] moves, and the
    final calls overwrite it. *)
Lemma undisturbed_iterations (during : nat -> list Action) (n : nat)
    (done : list AnalysisResult) :
  (forall i, during i = []) ->
  forall js st,
    commit [setResults done; setProgress 100%float; setIsProcessing false]
      (fold_left
         (fun s j =>
            dispatch_all (during j)
              (apply_call
                 (setProgress (number j / number n * 100)%float) s))
         js st)
    = commit [setResults done; setProgress 100%float; setIsProcessing false]
        st.
Proof.
  intros Hidle. induction js as [|j js IH]; intros st; [reflexivity|].
  cbn [fold_left]. rewrite IH, Hidle. reflexivity.
Qed.

Lemma analyzeImages_undisturbed_form (st : State)
    (during : nat -> list Action) :
  trim (apiKey st) <> [] ->
  images st <> [] ->
  (forall i, during i = []) ->
  exists log,
    analyzeImages st during
    = Some
        (Resolved
           {| apiKey := apiKey st; model := model st; images := images st;
              useFilename := useFilename st;
              includeDescription := includeDescription st;
              results :=
                map (result_for (includeDescription st)) (images st);
              isProcessing := false; progress := 100%float;
              googleSheetsUrl := googleSheetsUrl st |}
           log).
Proof.
  intros Hkey Himg Hidle.
  rewrite (analyzeImages_closed_form st during Hkey Himg).
  rewrite (undisturbed_iterations during _ _ Hidle).
  eexists. reflexivity.
Qed.

(** X8. A run during which the user does nothing changes three cells only:
    [results] holds the new results, [progress] is 100 and [isProcessing]
    is off; key, model, collection, both options and the Sheets URL are as
    they were. *)
Theorem analyzeImages_undisturbed (st : State)
    (during : nat -> list Action) :
  trim (apiKey st) <> [] ->
  images st <> [] ->
  (forall i, during i = []) ->
  exists final log,
    analyzeImages st during = Some (Resolved final log)
    /\ apiKey final = apiKey st /\ model final = model st
    /\ images final = images st /\ useFilename final = useFilename st
    /\ includeDescription final = includeDescription st
    /\ googleSheetsUrl final = googleSheetsUrl st
    /\ isProcessing final = false /\ progress final = 100%float
    /\ length (results final) = length (images st).
Proof.
  intros Hkey Himg Hidle.
  destruct (analyzeImages_undisturbed_form st during Hkey Himg Hidle)
    as [log E].
  eexists. exists log. split; [exact E|].
  cbn [apiKey model images useFilename includeDescription googleSheetsUrl
       isProcessing progress results].
  repeat (split; [reflexivity|]). apply length_map.
Qed.

Lemma analyzeImages_undisturbed_witness :
  trim (apiKey loaded) <> []
  /\ images loaded <> []
  /\ (forall i, idle i = [])
  /\ exists final log,
       analyzeImages loaded idle = Some (Resolved final log)
       /\ apiKey final = apiKey loaded /\ model final = model loaded
       /\ images final = images loaded
       /\ useFilename final = useFilename loaded
       /\ includeDescription final = includeDescription loaded
       /\ googleSheetsUrl final = googleSheetsUrl loaded
       /\ isProcessing final = false /\ progress final = 100%float
       /\ length (results final) = length (images loaded).
Proof.
  assert (Hkey : trim (apiKey loaded) <> []) by (vm_compute; discriminate).
  assert (Himg : images loaded <> []) by (vm_compute; discriminate).
  assert (Hidle : forall i, idle i = []) by reflexivity.
  split; [exact Hkey|]. split; [exact Himg|]. split; [exact Hidle|].
  exact (analyzeImages_undisturbed loaded idle Hkey Himg Hidle).
Defined.

(** X9. Results are replaced, not accumulated: a second undisturbed run
    from the state the first one ended in ends in that same state. *)
Theorem analyzeImages_again (st final : State) (log : list Call) :
  trim (apiKey st) <> [] ->
  images st <> [] ->
  analyzeImages st idle = Some (Resolved final log) ->
  exists log', analyzeImages final idle = Some (Resolved final log').
Proof.
  intros Hkey Himg Hrun.
  destruct (analyzeImages_undisturbed_form st idle Hkey Himg
              (fun _ => eq_refl)) as [log1 E].
  rewrite E in Hrun. injection Hrun as Hfinal Hlog. subst final.
  destruct (analyzeImages_undisturbed_form
              {| apiKey := apiKey st; model := model st;
                 images := images st; useFilename := useFilename st;
                 includeDescription := includeDescription st;
                 results :=
                   map (result_for (includeDescription st)) (images st);
                 isProcessing := false; progress := 100%float;
                 googleSheetsUrl := googleSheetsUrl st |}
              idle Hkey Himg (fun _ => eq_refl)) as [log' E'].
  exists log'. exact E'.
Qed.

Lemma analyzeImages_again_witness :
  trim (apiKey ready) <> []
  /\ images ready <> []
  /\ (exists log, analyzeImages ready idle = Some (Resolved analysed log))
  /\ exists log', analyzeImages analysed idle = Some (Resolved analysed log').
Proof.
  assert (Hkey : trim (apiKey ready) <> []) by (vm_compute; discriminate).
  assert (Himg : images ready <> []) by (vm_compute; discriminate).
  destruct (analyzeImages_undisturbed_form ready idle Hkey Himg
              (fun _ => eq_refl)) as [log E].
  assert (Hrun : analyzeImages ready idle = Some (Resolved analysed log)).
  { rewrite E. unfold analysed. rewrite E. reflexivity. }
  split; [exact Hkey|]. split; [exact Himg|].
  split; [exists log; exact Hrun|].
  exact (analyzeImages_again ready analysed log Hkey Himg Hrun).
Defined.

(** X10. Clearing the page does not stop a run.  When the last thing the
    user does during the last suspension is a click on the clear button,
    the run still stores one result per image of the collection it started
    with, next to a collection that is now empty. *)
Theorem clear_does_not_cancel (st : State) (during : nat -> list Action)
    (acts : list Action) :
  trim (apiKey st) <> [] ->
  images st <> [] ->
  during (length (images st) - 1)%nat = acts ++ [ClickClear] ->
  exists final log,
    analyzeImages st during = Some (Resolved final log)
    /\ images final = []
    /\ length (results final) = length (images st)
    /\ results final <> [].
Proof.
  intros Hkey Himg Hlast.
  rewrite (analyzeImages_closed_form st during Hkey Himg).
  eexists. eexists. split; [reflexivity|].
  destruct (length (images st)) as [|m] eqn:En.
  { destruct (images st); [now contradiction Himg|discriminate En]. }
  replace (S m - 1)%nat with m in Hlast by lia.
  split; [|split].
  - rewrite seq_S, fold_left_app. cbn [fold_left Nat.add].
    rewrite Hlast. unfold dispatch_all at 1. rewrite fold_left_app.
    reflexivity.
  - cbn [commit fold_left apply_call results]. rewrite length_map.
    exact En.
  - cbn [commit fold_left apply_call results].
    destruct (images st); [now contradiction Himg|discriminate].
Qed.

Lemma clear_does_not_cancel_witness :
  trim (apiKey loaded) <> []
  /\ images loaded <> []
  /\ clearing (length (images loaded) - 1)%nat = [] ++ [ClickClear]
  /\ exists final log,
       analyzeImages loaded clearing = Some (Resolved final log)
       /\ images final = []
       /\ length (results final) = length (images loaded)
       /\ results final <> [].
Proof.
  assert (Hkey : trim (apiKey loaded) <> []) by (vm_compute; discriminate).
  assert (Himg : images loaded <> []) by (vm_compute; discriminate).
  assert (Hlast : clearing (length (images loaded) - 1)%nat
                  = [] ++ [ClickClear]) by reflexivity.
  split; [exact Hkey|]. split; [exact Himg|]. split; [exact Hlast|].
  exact (clear_does_not_cancel loaded clearing [] Hkey Himg Hlast).
Defined.

Lemma result_for_names (b : bool) (l1 : list ImageFile) :
  forall l2,
    map name l1 = map name l2 ->
    map (result_for b) l1 = map (result_for b) l2.
Proof.
  induction l1 as [|x l1 IH]; intros [|y l2] H; simpl in *;
    try discriminate; [reflexivity|].
  injection H as Hx Hl. unfold result_for at 1 3. rewrite Hx.
  f_equal. now apply IH.
Qed.

(** X11. The results of a run are a function of the display names of the
    images and of the description option alone: key, model, filename
    option, Sheets URL, file contents and anything done during the run
    leave them the same. *)
Theorem analyzeImages_ignores_settings (st1 st2 : State)
    (during1 during2 : nat -> list Action) :
  trim (apiKey st1) <> [] -> images st1 <> [] ->
  trim (apiKey st2) <> [] -> images st2 <> [] ->
  map name (images st1) = map name (images st2) ->
  includeDescription st1 = includeDescription st2 ->
  exists final1 log1 final2 log2,
    analyzeImages st1 during1 = Some (Resolved final1 log1)
    /\ analyzeImages st2 during2 = Some (Resolved final2 log2)
    /\ results final1 = results final2.
Proof.
  intros Hk1 Hi1 Hk2 Hi2 Hnames Hincl.
  rewrite (analyzeImages_closed_form st1 during1 Hk1 Hi1).
  rewrite (analyzeImages_closed_form st2 during2 Hk2 Hi2).
  do 4 eexists. split; [reflexivity|]. split; [reflexivity|].
  cbn [commit fold_left apply_call results].
  rewrite Hincl. now apply result_for_names.
Qed.

Lemma analyzeImages_ignores_settings_witness :
  trim (apiKey ready) <> [] /\ images ready <> []
  /\ trim (apiKey ready_other) <> [] /\ images ready_other <> []
  /\ map name (images ready) = map name (images ready_other)
  /\ includeDescription ready = includeDescription ready_other
  /\ exists final1 log1 final2 log2,
       analyzeImages ready idle = Some (Resolved final1 log1)
       /\ analyzeImages ready_other clearing = Some (Resolved final2 log2)
       /\ results final1 = results final2.
Proof.
  assert (Hk1 : trim (apiKey ready) <> []) by (vm_compute; discriminate).
  assert (Hi1 : images ready <> []) by (vm_compute; discriminate).
  assert (Hk2 : trim (apiKey ready_other) <> [])
    by (vm_compute; discriminate).
  assert (Hi2 : images ready_other <> []) by (vm_compute; discriminate).
  assert (Hn : map name (images ready) = map name (images ready_other))
    by reflexivity.
  assert (Hd : includeDescription ready = includeDescription ready_other)
    by reflexivity.
  repeat (split; [assumption|]).
  exact (analyzeImages_ignores_settings ready ready_other idle clearing
           Hk1 Hi1 Hk2 Hi2 Hn Hd).
Defined.

(** X12. Every record of the collection gets a result, with or without a
    preview, and every result of a run has status [completed], the fixed
    keywords, and the fixed title prefix followed by its file name; no
    other status is ever produced. *)
Theorem analyzeImages_result_fields (st : State)
    (during : nat -> list Action) :
  trim (apiKey st) <> [] ->
  images st <> [] ->
  exists final log,
    analyzeImages st during = Some (Resolved final log)
    /\ Forall2
         (fun image r =>
            filename r = name image
            /\ status r = completed
            /\ keywords r
               = utf16 "ключевое слово1, ключевое слово2, ключевое слово3"
            /\ title r = utf16 "SEO заголовок для " ++ filename r)
         (images st) (results final).
Proof.
  intros Hkey Himg.
  rewrite (analyzeImages_closed_form st during Hkey Himg).
  do 2 eexists. split; [reflexivity|].
  cbn [commit fold_left apply_call results].
  clear Hkey Himg. generalize (images st) as l.
  induction l as [|x l IH]; simpl; constructor; [|exact IH].
  split; [reflexivity|]. split; [reflexivity|]. split; reflexivity.
Qed.

Lemma analyzeImages_result_fields_witness :
  trim (apiKey loaded) <> []
  /\ images loaded <> []
  /\ exists final log,
       analyzeImages loaded idle = Some (Resolved final log)
       /\ Forall2
            (fun image r =>
               filename r = name image
               /\ status r = completed
               /\ keywords r
                  = utf16 "ключевое слово1, ключевое слово2, ключевое слово3"
               /\ title r = utf16 "SEO заголовок для " ++ filename r)
            (images loaded) (results final).
Proof.
  assert (Hkey : trim (apiKey loaded) <> []) by (vm_compute; discriminate).
  assert (Himg : images loaded <> []) by (vm_compute; discriminate).
  split; [exact Hkey|]. split; [exact Himg|].
  exact (analyzeImages_result_fields loaded idle Hkey Himg).
Defined.

(** ** The analysis button *)

Lemma run_calls_no_alert (m : jsstring) (n : nat) (R : list AnalysisResult) :
  ~ In (alert m)
      ([setIsProcessing true; setProgress 0%float]
       ++ flat_map
            (fun j =>
               [setProgress (number j / number n * 100)%float;
                setTimeout 2000])
            (seq 0 n)
       ++ [setResults R; setProgress 100%float; setIsProcessing false]).
Proof.
  intros H. apply in_app_or in H as [H|H].
  - destruct H as [H|[H|[]]]; discriminate H.
  - apply in_app_or in H as [H|H].
    + apply in_flat_map in H as (j & _ & H).
      destruct H as [H|[H|[]]]; discriminate H.
    + destruct H as [H|[H|[H|[]]]]; discriminate H.
Qed.

(** X13. Behind an enabled analysis button the EmptyInput alert cannot
    occur.  With a key of white space only the click starts nothing: the
    state stays as it is and the one call is the MissingCredential alert,
    which is not the EmptyInput alert.  With any other key the click runs
    to the end: its calls are the setters and suspensions of a run, none of
    them an alert, and it ends with one result per image stored,
    [isProcessing] off and [progress] at 100. *)
Theorem analyze_button_guard (st : State) (during : nat -> list Action) :
  analyze_disabled st = false ->
  let log :=
    [setIsProcessing true; setProgress 0%float]
    ++ flat_map
         (fun j =>
            [setProgress
               (number j / number (length (images st)) * 100)%float;
             setTimeout 2000])
         (seq 0 (length (images st)))
    ++ [setResults (map (result_for (includeDescription st)) (images st));
        setProgress 100%float; setIsProcessing false] in
  MissingCredential <> EmptyInput
  /\ (forallb is_whitespace (apiKey st) = true ->
      analyzeImages st during = Some (Resolved st [MissingCredential]))
  /\ (forallb is_whitespace (apiKey st) = false ->
      (forall message, ~ In (alert message) log)
      /\ exists final,
           analyzeImages st during = Some (Resolved final log)
           /\ results final
              = map (result_for (includeDescription st)) (images st)
           /\ isProcessing final = false
           /\ progress final = 100%float).
Proof.
  intros H log. unfold analyze_disabled in H.
  apply orb_false_iff in H as [H Hkey].
  apply orb_false_iff in H as [_ Hlen].
  assert (Himg : images st <> []).
  { destruct (images st); [discriminate Hlen|discriminate]. }
  split; [exact (proj1 alerts_differ)|]. split; intros Ews.
  - unfold analyzeImages. now rewrite (trim_blank _ Ews).
  - assert (Ht : trim (apiKey st) <> []).
    { intros T. apply trim_nil_iff in T. congruence. }
    split; [intros message; apply run_calls_no_alert|].
    rewrite (analyzeImages_closed_form st during Ht Himg).
    eexists. split; [reflexivity|]. repeat split.
Qed.

Lemma analyze_button_guard_witness :
  analyze_disabled loaded = false
  /\ let log :=
       [setIsProcessing true; setProgress 0%float]
       ++ flat_map
            (fun j =>
               [setProgress
                  (number j / number (length (images loaded)) * 100)%float;
                setTimeout 2000])
            (seq 0 (length (images loaded)))
       ++ [setResults
             (map (result_for (includeDescription loaded)) (images loaded));
           setProgress 100%float; setIsProcessing false] in
     MissingCredential <> EmptyInput
     /\ (forallb is_whitespace (apiKey loaded) = true ->
         analyzeImages loaded clearing
         = Some (Resolved loaded [MissingCredential]))
     /\ (forallb is_whitespace (apiKey loaded) = false ->
         (forall message, ~ In (alert message) log)
         /\ exists final,
              analyzeImages loaded clearing = Some (Resolved final log)
              /\ results final
                 = map (result_for (includeDescription loaded))
                     (images loaded)
              /\ isProcessing final = false
              /\ progress final = 100%float).
Proof.
  assert (H : analyze_disabled loaded = false) by reflexivity.
  split; [exact H|]. exact (analyze_button_guard loaded clearing H).
Defined.

(** The handlers bound to the controls never call [setIsProcessing] or
    [setProgress]. *)
Lemma handler_calls_not_processing (a : Action) (st : State) (b : bool)
    (p : float) :
  ~ In (setIsProcessing b) (handler a st)
  /\ ~ In (setProgress p) (handler a st).
Proof.
  destruct a; cbn [handler].
  1-8: split; intros H; repeat (destruct H as [H|H]; try discriminate H);
    exact H.
  - unfold exportToCSV. destruct (results st);
      split; intros H; repeat (destruct H as [H|H]; try discriminate H);
      exact H.
  - unfold saveToGoogleSheets.
    destruct (negb (truthy (trim (googleSheetsUrl st))));
      split; intros H; repeat (destruct H as [H|H]; try discriminate H);
      exact H.
Qed.

Lemma dispatch_keeps_processing (a : Action) (st : State) :
  isProcessing (dispatch a st) = isProcessing st
  /\ progress (dispatch a st) = progress st.
Proof.
  destruct a; try (split; reflexivity).
  - unfold dispatch, handler, exportToCSV.
    destruct (results st); split; reflexivity.
  - unfold dispatch, handler, saveToGoogleSheets.
    destruct (negb (truthy (trim (googleSheetsUrl st)))); split; reflexivity.
Qed.

(** X14. In every state, no control of the page other than the analysis
    button calls [setIsProcessing] or [setProgress], and after any sequence
    of the user's actions [isProcessing] and [progress] are what they were;
    so once a run has set [isProcessing], whatever the user does, the
    analysis button stays disabled and a second run cannot be started
    beside the first. *)
Theorem analyze_stays_disabled (acts : list Action) (st : State) :
  (forall a s b p,
     ~ In (setIsProcessing b) (handler a s)
     /\ ~ In (setProgress p) (handler a s))
  /\ isProcessing (dispatch_all acts st) = isProcessing st
  /\ progress (dispatch_all acts st) = progress st
  /\ (isProcessing st = true ->
      analyze_disabled (dispatch_all acts st) = true).
Proof.
  split; [intros a s b p; apply handler_calls_not_processing|].
  assert (Hkeep : isProcessing (dispatch_all acts st) = isProcessing st
                  /\ progress (dispatch_all acts st) = progress st).
  { revert st. induction acts as [|a acts IH]; intros st;
      [split; reflexivity|].
    change (dispatch_all (a :: acts) st)
      with (dispatch_all acts (dispatch a st)).
    destruct (dispatch_keeps_processing a st) as [Hp Hq].
    destruct (IH (dispatch a st)) as [H1 H2].
    split; congruence. }
  destruct Hkeep as [Hp Hq]. split; [exact Hp|]. split; [exact Hq|].
  intros Hrun. unfold analyze_disabled. rewrite Hp, Hrun. reflexivity.
Qed.

(** ** Lines of the CSV text *)

Lemma no_unit_check (x : code_unit) (l : jsstring) :
  forallb (fun c => negb (c =? x)%N) l = true -> ~ In x l.
Proof.
  rewrite forallb_forall. intros H Hin. specialize (H x Hin).
  rewrite N.eqb_refl in H. discriminate H.
Qed.

Lemma separated_free (x s : code_unit) (parts : list jsstring) :
  x <> s ->
  Forall (fun p => ~ In x p) parts ->
  ~ In x (separated [s] parts).
Proof.
  intros Hxs Hparts. destruct Hparts as [|p rest Hp Hrest];
    [intros []|].
  unfold separated. rewrite in_app_iff. intros [H|H]; [now apply Hp|].
  induction Hrest as [|q rest Hq Hrest IH]; simpl in H; [exact H|].
  destruct H as [H|H]; [congruence|].
  apply in_app_or in H as [H|H]; [now apply Hq|now apply IH].
Qed.

Lemma separated_line_feeds (parts : list jsstring) :
  Forall (fun p => ~ In 10%N p) parts ->
  count_occ N.eq_dec (separated [10%N] parts) 10%N
  = (length parts - 1)%nat.
Proof.
  intros Hparts. destruct Hparts as [|p rest Hp Hrest]; [reflexivity|].
  unfold separated. rewrite count_occ_app.
  cbv delta [code_unit] in *.
  rewrite (proj1 (count_occ_not_In N.eq_dec p 10%N) Hp).
  simpl. rewrite Nat.sub_0_r.
  induction Hrest as [|q rest Hq Hrest IH]; [reflexivity|].
  simpl. rewrite count_occ_app.
  rewrite (proj1 (count_occ_not_In N.eq_dec q 10%N) Hq), IH. reflexivity.
Qed.

Lemma headers_free (b : bool) : Forall (fun p => ~ In 10%N p) (headers b).
Proof.
  destruct b; repeat constructor; apply no_unit_check; reflexivity.
Qed.

(** A table without line feeds in its header and fields has one line feed
    per row. *)
Lemma csv_text_line_feeds (header : list jsstring)
    (rows : list (list jsstring)) :
  Forall (fun p => ~ In 10%N p) header ->
  Forall (fun fields => Forall (fun v => ~ In 10%N v) fields) rows ->
  count_occ N.eq_dec (csv_text header rows) 10%N = length rows.
Proof.
  intros Hh Hrows. unfold csv_text. rewrite separated_line_feeds.
  - simpl. now rewrite length_map, Nat.sub_0_r.
  - constructor; [apply separated_free; [discriminate|exact Hh]|].
    apply Forall_forall. intros line Hline.
    apply in_map_iff in Hline as (fields & <- & Hin).
    apply separated_free; [discriminate|].
    apply Forall_forall. intros w Hw.
    apply in_map_iff in Hw as (v & <- & Hv).
    rewrite Forall_forall in Hrows. specialize (Hrows fields Hin).
    rewrite Forall_forall in Hrows. specialize (Hrows v Hv).
    intros [E|H]; [discriminate E|].
    apply in_app_or in H as [H|[E|[]]]; [now apply Hrows|discriminate E].
Qed.

(** X15. When no exported value holds a line feed, the CSV text has one
    line feed per result: a header line and one line for each result. *)
Theorem exportToCSV_lines (st : State) :
  results st <> [] ->
  Forall
    (fun row =>
       Forall (fun v => ~ In 10%N v) (values (includeDescription st) row))
    (results st) ->
  exists text,
    exportToCSV st
    = [download (utf16 "image_analysis_results.csv") (utf16 "text/csv") text]
    /\ count_occ N.eq_dec text 10%N = length (results st).
Proof.
  intros Hres Hfree. rewrite (exportToCSV_table st Hres).
  eexists. split; [reflexivity|].
  rewrite csv_text_line_feeds.
  - apply length_map.
  - apply headers_free.
  - apply Forall_forall. intros fields Hin.
    apply in_map_iff in Hin as (row & <- & Hrow).
    rewrite Forall_forall in Hfree. now apply Hfree.
Qed.

Lemma exportToCSV_lines_witness :
  results analysed <> []
  /\ Forall
       (fun row =>
          Forall (fun v => ~ In 10%N v)
            (values (includeDescription analysed) row))
       (results analysed)
  /\ exists text,
       exportToCSV analysed
       = [download (utf16 "image_analysis_results.csv") (utf16 "text/csv")
            text]
       /\ count_occ N.eq_dec text 10%N = length (results analysed).
Proof.
  assert (H : results analysed <> []) by (vm_compute; discriminate).
  assert (F : Forall
                (fun row =>
                   Forall (fun v => ~ In 10%N v)
                     (values (includeDescription analysed) row))
                (results analysed)).
  { repeat constructor; apply no_unit_check; reflexivity. }
  split; [exact H|]. split; [exact F|].
  exact (exportToCSV_lines analysed H F).
Defined.

Lemma result_for_values_free (b b' : bool) (image : ImageFile) :
  ~ In 10%N (name image) ->
  Forall (fun v => ~ In 10%N v) (values b' (result_for b image)).
Proof.
  intros Hname.
  assert (Htitle : ~ In 10%N (title (result_for b image))).
  { cbn [title result_for]. rewrite in_app_iff.
    intros [H|H]; [|now apply Hname].
    revert H. apply no_unit_check. reflexivity. }
  assert (Hkw : ~ In 10%N (keywords (result_for b image)))
    by (apply no_unit_check; reflexivity).
  assert (Hdesc : ~ In 10%N (description_or_empty (result_for b image))).
  { unfold description_or_empty.
    destruct b; cbn [description result_for]; [|intros []].
    destruct (truthy _); [|intros []].
    rewrite in_app_iff. intros [H|H]; [|now apply Hname].
    revert H. apply no_unit_check. reflexivity. }
  destruct b'; repeat constructor; assumption.
Qed.

(** X16. Analysis followed by export: for a collection of N images whose
    names hold no line feed, the CSV exported from the state the run ends
    in has exactly N line feeds, N + 1 lines, whatever the user did during
    the run and whichever way the description option stands by then. *)
Theorem analyze_then_export (st : State) (during : nat -> list Action) :
  trim (apiKey st) <> [] ->
  images st <> [] ->
  Forall (fun image => ~ In 10%N (name image)) (images st) ->
  exists final log text,
    analyzeImages st during = Some (Resolved final log)
    /\ exportToCSV final
       = [download (utf16 "image_analysis_results.csv") (utf16 "text/csv")
            text]
    /\ count_occ N.eq_dec text 10%N = length (images st).
Proof.
  intros Hkey Himg Hnames.
  rewrite (analyzeImages_closed_form st during Hkey Himg).
  match goal with
  | |- exists f l t, Some (Resolved ?F ?L) = _ /\ _ =>
      set (final := F); exists final, L
  end.
  assert (Hres : results final
                 = map (result_for (includeDescription st)) (images st))
    by reflexivity.
  clearbody final.
  assert (Hne : results final <> []).
  { rewrite Hres. destruct (images st); [now contradiction Himg|].
    discriminate. }
  exists (csv_text (headers (includeDescription final))
            (map (values (includeDescription final)) (results final))).
  split; [reflexivity|]. split; [apply (exportToCSV_table final Hne)|].
  rewrite csv_text_line_feeds.
  - now rewrite length_map, Hres, length_map.
  - apply headers_free.
  - apply Forall_forall. intros fields Hin.
    apply in_map_iff in Hin as (row & <- & Hrow).
    rewrite Hres in Hrow. apply in_map_iff in Hrow as (image & <- & Himage).
    apply result_for_values_free.
    rewrite Forall_forall in Hnames. now apply Hnames.
Qed.

Lemma analyze_then_export_witness :
  trim (apiKey loaded) <> []
  /\ images loaded <> []
  /\ Forall (fun image => ~ In 10%N (name image)) (images loaded)
  /\ exists final log text,
       analyzeImages loaded clearing = Some (Resolved final log)
       /\ exportToCSV final
          = [download (utf16 "image_analysis_results.csv")
               (utf16 "text/csv") text]
       /\ count_occ N.eq_dec text 10%N = length (images loaded).
Proof.
  assert (Hkey : trim (apiKey loaded) <> []) by (vm_compute; discriminate).
  assert (Himg : images loaded <> []) by (vm_compute; discriminate).
  assert (Hn : Forall (fun image => ~ In 10%N (name image)) (images loaded)).
  { repeat constructor; apply no_unit_check; reflexivity. }
  split; [exact Hkey|]. split; [exact Himg|]. split; [exact Hn|].
  exact (analyze_then_export loaded clearing Hkey Himg Hn).
Defined.

(** ** Small files and empty batches *)

Lemma decimal_zero_only (m : N) : decimal m = [48%N] -> m = 0%N.
Proof.
  intros H. destruct (N.lt_ge_cases m 10) as [Hlt|Hge].
  - rewrite (decimal_digit m Hlt) in H.
    apply (f_equal (fun l => nth 0 l 0%N)) in H. cbn [nth] in H. lia.
  - rewrite (decimal_step m Hge) in H.
    pose proof (decimal_length (m / 10)) as Hlen.
    apply (f_equal (@length _)) in H. rewrite length_app in H.
    simpl in H. lia.
Qed.

(** X17. The size label is "0.00 MB" exactly for the files of fewer than
    5243 bytes, the empty file among them: intake accepts them all the
    same. *)
Theorem intake_small_file (o : Oracle) (k : nat) (f : File) :
  size (intake o k f) = utf16 "0.00 MB" <-> (file_size f < 5243)%N.
Proof.
  unfold intake; cbn [size]. rewrite toFixed_size. cbv zeta.
  set (n := ((200 * file_size f + 1048576) / 2097152)%N).
  assert (Hn : (n = 0 <-> file_size f < 5243)%N).
  { unfold n. split; intros H.
    - apply N.div_small_iff in H; lia.
    - apply N.div_small. lia. }
  rewrite <- Hn. split; intros H.
  - change (utf16 "0.00 MB") with ([48; 46; 48; 48]%N ++ utf16 " MB") in H.
    apply app_inv_tail in H.
    change [48; 46; 48; 48]%N
      with ((([48%N] ++ [46%N]) ++ [48%N]) ++ [48%N]) in H.
    change (decimal (n / 100) ++ [46; 48 + (n / 10) mod 10; 48 + n mod 10])%N
      with (decimal (n / 100)
            ++ [46%N] ++ [(48 + (n / 10) mod 10)%N] ++ [(48 + n mod 10)%N])
      in H.
    rewrite !app_assoc in H.
    apply app_inj_tail in H as [H H0].
    apply app_inj_tail in H as [H H1].
    apply app_inj_tail in H as [H2 _].
    apply decimal_zero_only in H2.
    cbv delta [code_unit] in H0, H1.
    assert (E : n = (100 * (n / 100) + n mod 100)%N)
      by (apply N.div_mod; discriminate).
    assert (E1 : (n mod 100 = 10 * ((n / 10) mod 10) + n mod 10)%N).
    { rewrite N.Div0.mod_mul_r with (b := 10%N) (c := 10%N). lia. }
    lia.
  - rewrite H. reflexivity.
Qed.

(** X18. A change of the file input that carries no file list, or an empty
    one, leaves every cell of the state as it was. *)
Theorem handleFileInput_nothing (o : Oracle) (files : option (list File))
    (st : State) :
  files = None \/ files = Some [] ->
  commit (handleFileInput o files) st = st.
Proof.
  intros [->| ->]; [reflexivity|].
  apply State_ext; try reflexivity. apply app_nil_r.
Qed.

Lemma handleFileInput_nothing_witness :
  (@None (list File) = None \/ @None (list File) = Some [])
  /\ commit (handleFileInput an_oracle None) loaded = loaded.
Proof.
  assert (H : @None (list File) = None \/ @None (list File) = Some [])
    by (left; reflexivity).
  split; [exact H|]. exact (handleFileInput_nothing an_oracle None loaded H).
Defined.

Example intake_empty_file :
  size (intake an_oracle 0 empty_file) = utf16 "0.00 MB"
  /\ preview (intake an_oracle 0 empty_file) = Some (utf16 "blob:0").
Proof. split; vm_compute; reflexivity. Qed.
